(** * The metrics-exporter sidecar: circuit breaker, cached fetcher,
      format translator and HTTP handlers

    A shallow embedding of [agent/helm/image/custom_metics_exporter.py].

    Conventions of the model:
    - Python values that travel through the program (the JSON document returned
      by [response.json()], the cached document, [None]) are values of [json];
      Python's [None] is [JNull].
    - [time.time()] readings, time-outs and delays are integers in one fixed
      unit (seconds); the source uses floats for the same comparisons.
    - A Python [str] is a [string] holding its code points one after the
      other, each in the UTF-8 scheme; this includes the surrogates U+D800 to
      U+DFFF, which [response.json()] produces from an escape such as
      ["\ud800"] and which [str.encode] refuses.  ASCII text is itself.
    - Everything outside the process (the clock, the upstream agent, the
      delivery of a termination signal) is an [Env] of oracles, read in the
      order in which the program consults them.  Theorems quantify over every
      [Env].
    - The module's global variables form the record [World]; exceptions are
      explicit results.  [trace] is a ghost log of what the program did.
    - The signal handler and its drain loop reach the code below only through
      the two flags [agent_draining] and [shutdown_event]; the first is a
      field of [World], the second is a field that the [signal] oracle may
      set at any read. *)

From Stdlib Require Import ZArith String Ascii List Lia.
From stdpp Require Import gmap strings pretty.

Set Warnings "-register-all".
Open Scope Z_scope.

(** ** Values *)

Inductive json : Type :=
| JNull                               (* None / null *)
| JBool (b : bool)
| JInt (z : Z)
| JFloat (bits : Z)                   (* a binary64, by its bit pattern *)
| JStr (s : string)
| JArr (l : list json)
| JObj (m : gmap string json).        (* dict *)

Definition is_not_None (v : json) : bool :=
  match v with JNull => false | _ => true end.

(** ** Exceptions.  All of them are subclasses of [Exception]. *)

Inductive exn : Type :=
| Exception (msg : string)            (* raise Exception("...") *)
| RequestException (msg : string)     (* raised by requests / raise_for_status / json() *)
| TypeError
| AttributeError
| UnicodeEncodeError.                 (* raised by str.encode on a lone surrogate *)

Inductive result (A : Type) : Type :=
| Ret (a : A)
| Raise (e : exn).
Arguments Ret {A} a.
Arguments Raise {A} e.

Definition CircuitOpenError : exn := Exception "Circuit breaker is OPEN".
Definition ShutdownFetchError : exn :=
  Exception "Shutdown initiated, stopping metrics fetch".
Definition ShutdownWaitError : exn :=
  Exception "Shutdown initiated during retry wait".

(** ** The circuit breaker object *)

Inductive cb_state : Type := CLOSED | OPEN | HALF_OPEN.

Definition is_OPEN (s : cb_state) : bool :=
  match s with OPEN => true | _ => false end.
Definition is_HALF_OPEN (s : cb_state) : bool :=
  match s with HALF_OPEN => true | _ => false end.

Record CircuitBreaker : Type := mkCB {
  failure_threshold : Z;
  recovery_timeout : Z;
  failure_count : Z;
  last_failure_time : option Z;
  state : cb_state
}.

(** [CircuitBreaker.__init__] *)
Definition CircuitBreaker_init (threshold timeout : Z) : CircuitBreaker :=
  mkCB threshold timeout 0 None CLOSED.

(** ** Ghost trace *)

Inductive level : Type := DEBUG | INFO | WARNING | ERROR.

Inductive LogMsg : Type :=
| MsgHalfOpen                          (* "Circuit breaker transitioning to HALF_OPEN" *)
| MsgReset                             (* "Circuit breaker reset to CLOSED" *)
| MsgOpened (failures : Z)             (* "Circuit breaker opened after n failures" *)
| MsgCached                            (* "Returning cached metrics" *)
| MsgRetrying (attempt : Z) (e : exn) (delay : Z)
| MsgAgentGone                         (* "Agent appears to be shutting down, ..." *)
| MsgGaveUp (max_attempts : Z) (e : exn)
| MsgStale                             (* "Returning stale cached metrics due to repeated failures" *)
| MsgHealthFailed (e : exn)
| MsgMetricsError (e : exn).

Inductive Event : Type :=
| EvTime (t : Z)                       (* time.time() returned t *)
| EvRequest (r : result json)          (* _fetch_metrics_internal ran, with this outcome *)
| EvIsSet (b : bool)                   (* shutdown_event.is_set() *)
| EvWait (timeout : Z) (b : bool)      (* shutdown_event.wait(timeout) *)
| EvAttempt                            (* fetch_metrics_with_circuit_breaker entered *)
| EvLog (l : level) (m : LogMsg).

(** ** The environment and the module's globals *)

Record Env : Type := mkEnv {
  clock : nat -> Z;                    (* the reading of time.time() at a step *)
  upstream : nat -> result json;       (* what GET + raise_for_status + json() gives *)
  signal : nat -> bool                 (* the latch has been set by this step *)
}.

Record World : Type := mkWorld {
  circuit_breaker : CircuitBreaker;
  MAX_RETRY_ATTEMPTS : Z;
  RETRY_DELAY : Z;
  shutdown_event : bool;
  agent_draining : bool;
  last_successful_metrics : json;
  last_metrics_time : option Z;
  metrics_cache_ttl : Z;
  healthcheck_failures : gmap string Z;    (* defaultdict(int) *)
  steps : nat;                         (* environment interactions so far *)
  trace : list Event
}.

(** The module just after import, with no environment variable set. *)
Definition init_world : World :=
  mkWorld (CircuitBreaker_init 5 30) 30 5 false false JNull None 30 ∅ 0%nat [].

Definition with_breaker (b : CircuitBreaker) (w : World) : World :=
  mkWorld b (MAX_RETRY_ATTEMPTS w) (RETRY_DELAY w) (shutdown_event w)
    (agent_draining w) (last_successful_metrics w) (last_metrics_time w)
    (metrics_cache_ttl w) (healthcheck_failures w) (steps w) (trace w).

Definition with_shutdown_event (b : bool) (w : World) : World :=
  mkWorld (circuit_breaker w) (MAX_RETRY_ATTEMPTS w) (RETRY_DELAY w) b
    (agent_draining w) (last_successful_metrics w) (last_metrics_time w)
    (metrics_cache_ttl w) (healthcheck_failures w) (steps w) (trace w).

Definition with_last_successful_metrics (v : json) (w : World) : World :=
  mkWorld (circuit_breaker w) (MAX_RETRY_ATTEMPTS w) (RETRY_DELAY w)
    (shutdown_event w) (agent_draining w) v (last_metrics_time w)
    (metrics_cache_ttl w) (healthcheck_failures w) (steps w) (trace w).

Definition with_last_metrics_time (t : option Z) (w : World) : World :=
  mkWorld (circuit_breaker w) (MAX_RETRY_ATTEMPTS w) (RETRY_DELAY w)
    (shutdown_event w) (agent_draining w) (last_successful_metrics w) t
    (metrics_cache_ttl w) (healthcheck_failures w) (steps w) (trace w).

Definition with_healthcheck_failures (m : gmap string Z) (w : World) : World :=
  mkWorld (circuit_breaker w) (MAX_RETRY_ATTEMPTS w) (RETRY_DELAY w)
    (shutdown_event w) (agent_draining w) (last_successful_metrics w)
    (last_metrics_time w) (metrics_cache_ttl w) m (steps w) (trace w).

(** One more event in the trace; [tick] also moves to the next oracle slot. *)
Definition record (ev : Event) (w : World) : World :=
  mkWorld (circuit_breaker w) (MAX_RETRY_ATTEMPTS w) (RETRY_DELAY w)
    (shutdown_event w) (agent_draining w) (last_successful_metrics w)
    (last_metrics_time w) (metrics_cache_ttl w) (healthcheck_failures w)
    (steps w) (trace w ++ [ev]).

Definition tick (ev : Event) (w : World) : World :=
  mkWorld (circuit_breaker w) (MAX_RETRY_ATTEMPTS w) (RETRY_DELAY w)
    (shutdown_event w) (agent_draining w) (last_successful_metrics w)
    (last_metrics_time w) (metrics_cache_ttl w) (healthcheck_failures w)
    (S (steps w)) (trace w ++ [ev]).

(** ** A state-and-exception monad over [World] *)

Definition M (A : Type) : Type := Env -> World -> result A * World.

Definition ret {A} (a : A) : M A := fun _ w => (Ret a, w).

Definition raise {A} (e : exn) : M A := fun _ w => (Raise e, w).

Definition bind {A B} (m : M A) (k : A -> M B) : M B :=
  fun env w =>
    match m env w with
    | (Ret a, w') => k a env w'
    | (Raise e, w') => (Raise e, w')
    end.

(** [try: m  except Exception as e: h e] *)
Definition try_except {A} (m : M A) (h : exn -> M A) : M A :=
  fun env w =>
    match m env w with
    | (Ret a, w') => (Ret a, w')
    | (Raise e, w') => h e env w'
    end.

Definition get {A} (f : World -> A) : M A := fun _ w => (Ret (f w), w).

Definition modify (f : World -> World) : M unit := fun _ w => (Ret tt, f w).

Notation "'let*' x ':=' m 'in' k" := (bind m (fun x => k))
  (at level 10, x name, m at level 100, k at level 200).
Notation "m ';;' k" := (bind m (fun _ => k))
  (at level 100, k at level 200, right associativity).

(** ** Primitives *)

Definition logger (l : level) (m : LogMsg) : M unit := modify (record (EvLog l m)).

Definition time_time : M Z :=
  fun env w => let t := clock env (steps w) in (Ret t, tick (EvTime t) w).

(** [shutdown_event.is_set()]: the latch stays set once it has been seen set. *)
Definition is_set : M bool :=
  fun env w =>
    let b := shutdown_event w || signal env (steps w) in
    (Ret b, tick (EvIsSet b) (with_shutdown_event b w)).

(** [shutdown_event.wait(timeout)]: true when the latch is set by the end of
    the wait. *)
Definition wait (timeout : Z) : M bool :=
  fun env w =>
    let b := shutdown_event w || signal env (steps w) in
    (Ret b, tick (EvWait timeout b) (with_shutdown_event b w)).

(** [defaultdict(int)]: reading a missing key stores 0 under it. *)
Definition dd_getitem (k : string) : M Z :=
  fun _ w =>
    match healthcheck_failures w !! k with
    | Some v => (Ret v, w)
    | None => (Ret 0, with_healthcheck_failures (<[k := 0]> (healthcheck_failures w)) w)
    end.

Definition dd_setitem (k : string) (v : Z) : M unit :=
  modify (fun w => with_healthcheck_failures (<[k := v]> (healthcheck_failures w)) w).

(** [healthcheck_failures[k] += 1] *)
Definition dd_incr (k : string) : M unit :=
  let* v := dd_getitem k in dd_setitem k (v + 1).

(** ** [CircuitBreaker.call], on the module's [circuit_breaker] *)

Definition set_state (s : cb_state) : M unit :=
  modify (fun w =>
    let b := circuit_breaker w in
    with_breaker (mkCB (failure_threshold b) (recovery_timeout b)
                       (failure_count b) (last_failure_time b) s) w).

Definition set_failure_count (n : Z) : M unit :=
  modify (fun w =>
    let b := circuit_breaker w in
    with_breaker (mkCB (failure_threshold b) (recovery_timeout b)
                       n (last_failure_time b) (state b)) w).

Definition set_last_failure_time (t : Z) : M unit :=
  modify (fun w =>
    let b := circuit_breaker w in
    with_breaker (mkCB (failure_threshold b) (recovery_timeout b)
                       (failure_count b) (Some t) (state b)) w).

Definition CircuitBreaker_call {A} (func : M A) : M A :=
  let* self := get circuit_breaker in
  (if is_OPEN (state self) then
     let* now := time_time in
     match last_failure_time self with
     | None => raise TypeError                  (* float - None *)
     | Some t =>
         if now - t >? recovery_timeout self then
           set_state HALF_OPEN ;;
           logger INFO MsgHalfOpen
         else raise (Exception "Circuit breaker is OPEN")
     end
   else ret tt) ;;
  try_except
    (let* result := func in
     let* self := get circuit_breaker in
     (if is_HALF_OPEN (state self) then
        set_state CLOSED ;;
        set_failure_count 0 ;;
        logger INFO MsgReset
      else ret tt) ;;
     ret result)
    (fun e =>
       let* self := get circuit_breaker in
       set_failure_count (failure_count self + 1) ;;
       let* now := time_time in
       set_last_failure_time now ;;
       let* self := get circuit_breaker in
       (if failure_count self >=? failure_threshold self then
          set_state OPEN ;;
          logger ERROR (MsgOpened (failure_count self))
        else ret tt) ;;
       raise e).

(** [_fetch_metrics_internal]: GET the endpoint, [raise_for_status], decode. *)
Definition _fetch_metrics_internal : M json :=
  fun env w => let r := upstream env (steps w) in (r, tick (EvRequest r) w).

Definition fetch_metrics_with_circuit_breaker : M json :=
  modify (record EvAttempt) ;;
  CircuitBreaker_call _fetch_metrics_internal.

(** ** [fetch_metrics] *)

(** The body of [for attempt in range(max_attempts)], from iteration
    [attempt] on; [fuel] is the number of iterations left.  An iteration yields
    [Some v] when the source returns [v] and [None] when it goes round again. *)
Fixpoint fetch_loop (fuel : nat) (attempt max_attempts retry_delay : Z) : M json :=
  match fuel with
  | O => ret JNull                     (* the loop ran out: the function returns None *)
  | S fuel' =>
      let* stop := is_set in
      if stop then raise (Exception "Shutdown initiated, stopping metrics fetch")
      else
        let* r :=
          try_except
            (let* metrics_data := fetch_metrics_with_circuit_breaker in
             modify (with_last_successful_metrics metrics_data) ;;
             let* now := time_time in
             modify (with_last_metrics_time (Some now)) ;;
             dd_setitem "fetch" 0 ;;
             ret (Some metrics_data))
            (fun e =>
               dd_incr "fetch" ;;
               if attempt <? max_attempts - 1 then
                 let* draining := get agent_draining in
                 (if negb draining
                  then logger WARNING (MsgRetrying (attempt + 1) e retry_delay)
                  else ret tt) ;;
                 let* fired := wait retry_delay in
                 if fired
                 then raise (Exception "Shutdown initiated during retry wait")
                 else ret None
               else
                 let* draining := get agent_draining in
                 (if draining
                  then logger INFO MsgAgentGone
                  else logger ERROR (MsgGaveUp max_attempts e)) ;;
                 let* cached := get last_successful_metrics in
                 let* many :=
                   (if is_not_None cached
                    then let* n := dd_getitem "fetch" in ret (n >=? 3)
                    else ret false) in
                 if many
                 then logger WARNING MsgStale ;; ret (Some cached)
                 else raise e) in
        match r with
        | Some v => ret v
        | None => fetch_loop fuel' (attempt + 1) max_attempts retry_delay
        end
  end.

(** The freshness test of the cache: [time.time()] is read only when both
    globals are set. *)
Definition cache_is_fresh : M bool :=
  let* cached := get last_successful_metrics in
  if is_not_None cached then
    let* stamp := get last_metrics_time in
    match stamp with
    | None => ret false
    | Some t =>
        let* now := time_time in
        let* ttl := get metrics_cache_ttl in
        ret (now - t <? ttl)
    end
  else ret false.

Definition fetch_metrics : M json :=
  let* draining := get agent_draining in
  let* max_attempts := (if draining then ret 3 else get MAX_RETRY_ATTEMPTS) in
  let* draining := get agent_draining in
  let* retry_delay := (if draining then ret 1 else get RETRY_DELAY) in
  let* fresh := cache_is_fresh in
  if fresh then
    logger DEBUG MsgCached ;;
    get last_successful_metrics
  else
    fetch_loop (Z.to_nat max_attempts) 0 max_attempts retry_delay.

(** ** HTTP responses and [/health] *)

Record Response : Type := mkResponse {
  body : string;
  status : Z;
  mimetype : string
}.

(** Whether the text holds a surrogate code point: in the UTF-8 scheme these
    are the three-byte sequences that start with 0xED and go on with a byte
    from 0xA0 to 0xBF, and 0xED is never a continuation byte. *)
Fixpoint has_surrogate (s : string) : bool :=
  match s with
  | EmptyString => false
  | String a rest =>
      match rest with
      | EmptyString => false
      | String b _ =>
          ((N_of_ascii a =? 237)%N
           && (160 <=? N_of_ascii b)%N && (N_of_ascii b <=? 191)%N)
          || has_surrogate rest
      end
  end.

(** [Response(body, status=..., mimetype=...)]: the constructor encodes a
    [str] body as UTF-8 at once, and so raises on a text with a lone
    surrogate. *)
Definition Response_init (body : string) (status : Z) (mimetype : string)
  : result Response :=
  if has_surrogate body then Raise UnicodeEncodeError
  else Ret (mkResponse body status mimetype).

Definition health : M Response :=
  try_except
    (let* stop := is_set in
     if stop then ret (mkResponse "Shutting down" 503 "text/plain")
     else
       let* n := dd_getitem "fetch" in
       if n >? 10 then ret (mkResponse "Too many fetch failures" 503 "text/plain")
       else ret (mkResponse "OK" 200 "text/plain"))
    (fun e =>
       logger ERROR (MsgHealthFailed e) ;;
       ret (mkResponse "Health check failed" 503 "text/plain")).

(** ** The format translator and [/metrics] *)

(** The newline and the double-quote character, as one-character strings. *)
Definition nl : string := String "010"%char EmptyString.
Definition dq : string := String "034"%char EmptyString.

(** [sep.join(lines)] *)
Fixpoint join (sep : string) (lines : list string) : string :=
  match lines with
  | [] => EmptyString
  | [l] => l
  | l :: rest => l +:+ sep +:+ join sep rest
  end.

(** [d.get(key, dflt)]: only a dict has the method. *)
Definition dict_get (d : json) (key : string) (dflt : json) : result json :=
  match d with
  | JObj m => Ret (default dflt (m !! key))
  | _ => Raise AttributeError
  end.

(** [agent_status == "RUNNING"] *)
Definition is_RUNNING (v : json) : bool :=
  match v with JStr s => String.eqb s "RUNNING" | _ => false end.

Definition rbind {A B} (r : result A) (k : A -> result B) : result B :=
  match r with Ret a => k a | Raise e => Raise e end.

Notation "'try*' x ':=' r 'in' k" := (rbind r (fun x => k))
  (at level 10, x name, r at level 100, k at level 200).

Definition lift_result {A} (r : result A) : M A := fun _ w => (r, w).

Definition minimal_metrics : list string :=
  [ "# HELP app_active_task_count The number of active tasks.";
    "# TYPE app_active_task_count gauge";
    "app_active_task_count 0";
    "# HELP app_active_request_count The number of active requests.";
    "# TYPE app_active_request_count gauge";
    "app_active_request_count 0";
    "# HELP app_agent_status Shows if the agent is running. (1 for running, 0 for not)";
    "# TYPE app_agent_status gauge";
    "app_agent_status 0" ].

Section Translator.

(** What [str()] gives for a float, a list or a dict; the translator only
    pastes it into the output. *)
Variable py_str_other : json -> string.

(** The text an f-string puts for [{v}]. *)
Definition py_str (v : json) : string :=
  match v with
  | JNull => "None"
  | JBool true => "True"
  | JBool false => "False"
  | JInt z => pretty z
  | JStr s => s
  | _ => py_str_other v
  end.

Definition convert_to_prometheus (metrics : json) : result string :=
  try* build_info := dict_get metrics "buildInfo" (JObj ∅) in
  try* agent_status := dict_get metrics "agentStatus" (JStr EmptyString) in
  try* version := dict_get build_info "version" (JStr "unknown") in
  try* commit_hash := dict_get build_info "commitHash" (JStr "unknown") in
  try* build_timestamp := dict_get build_info "buildTimestamp" (JInt 0) in
  let agent_status_value := if is_RUNNING agent_status then 1 else 0 in
  try* active_task_count := dict_get metrics "activeTaskCount" (JInt 0) in
  try* active_request_count := dict_get metrics "activeRequestCount" (JInt 0) in
  try* open_sessions_count := dict_get metrics "openSessionsCount" (JInt 0) in
  Ret (join nl
    [ "# HELP app_version_info Application version information.";
      "# TYPE app_version_info gauge";
      "app_version_info{version=" +:+ dq +:+ py_str version +:+ dq
        +:+ ", commit_hash=" +:+ dq +:+ py_str commit_hash +:+ dq
        +:+ ", build_timestamp=" +:+ dq +:+ py_str build_timestamp +:+ dq
        +:+ "} 1";
      "# HELP app_agent_status Shows if the agent is running. (1 for running, 0 for not)";
      "# TYPE app_agent_status gauge";
      "app_agent_status " +:+ pretty agent_status_value;
      "# HELP app_active_task_count The number of active tasks.";
      "# TYPE app_active_task_count gauge";
      "app_active_task_count " +:+ py_str active_task_count;
      "# HELP app_active_request_count The number of active requests.";
      "# TYPE app_active_request_count gauge";
      "app_active_request_count " +:+ py_str active_request_count;
      "# HELP app_open_sessions_count The number of open sessions.";
      "# TYPE app_open_sessions_count gauge";
      "app_open_sessions_count " +:+ py_str open_sessions_count ]).

Definition metrics : M Response :=
  try_except
    (let* metrics_data := fetch_metrics in
     let* prom_metrics := lift_result (convert_to_prometheus metrics_data) in
     lift_result (Response_init prom_metrics 200 "text/plain"))
    (fun e =>
       logger ERROR (MsgMetricsError e) ;;
       lift_result (Response_init (join nl minimal_metrics) 200 "text/plain")).

End Translator.

(** ** Measures on traces *)

Definition is_request (ev : Event) : bool :=
  match ev with EvRequest _ => true | _ => false end.

Definition is_attempt (ev : Event) : bool :=
  match ev with EvAttempt => true | _ => false end.

(** How often the wrapped operation ran. *)
Definition invocations (l : list Event) : nat := length (List.filter is_request l).

(** How often [fetch_metrics_with_circuit_breaker] was entered. *)
Definition attempts (l : list Event) : nat := length (List.filter is_attempt l).

(** The time-outs of the waits, in order. *)
Definition waits (l : list Event) : list Z :=
  flat_map (fun ev => match ev with EvWait d _ => [d] | _ => [] end) l.

Arguments invocations : simpl never.
Arguments attempts : simpl never.
Arguments waits : simpl never.

(** The current value of a failure counter, as a read would give it. *)
Definition failures (k : string) (w : World) : Z :=
  default 0 (healthcheck_failures w !! k).

(** ** The invariant of the breaker

    [state] becomes [OPEN] only in the failure handler of [call], which has
    just stamped [last_failure_time] and found the count at the threshold. *)
Definition cb_wf (b : CircuitBreaker) : Prop :=
  state b = OPEN ->
  failure_threshold b <= failure_count b /\ last_failure_time b <> None.

(** The world in which the operation runs when an open breaker lets a probe
    through. *)
Definition half_open_world (env : Env) (w : World) : World :=
  let b := circuit_breaker w in
  record (EvLog INFO MsgHalfOpen)
    (with_breaker (mkCB (failure_threshold b) (recovery_timeout b)
                        (failure_count b) (last_failure_time b) HALF_OPEN)
       (tick (EvTime (clock env (steps w))) w)).

(** The retry budget [fetch_metrics] computes on entry. *)
Definition max_attempts_of (w : World) : Z :=
  if agent_draining w then 3 else MAX_RETRY_ATTEMPTS w.

Definition retry_delay_of (w : World) : Z :=
  if agent_draining w then 1 else RETRY_DELAY w.

(** ** Sample environments and worlds *)

(** The upstream refuses every request; the clock moves ten seconds a step. *)
Definition env_down : Env :=
  mkEnv (fun n => 10 * Z.of_nat n)
        (fun _ => Raise (RequestException "Connection failed"))
        (fun _ => false).

Definition doc_small : json := JObj (<["activeTaskCount" := JInt 5]> ∅).

(** The upstream fails until step 4 and answers afterwards. *)
Definition env_flaky : Env :=
  mkEnv (fun n => 10 * Z.of_nat n)
        (fun n => if (n <? 4)%nat
                  then Raise (RequestException "Connection failed")
                  else Ret doc_small)
        (fun _ => false).

(** The upstream answers every request; the clock starts at 100. *)
Definition env_up : Env :=
  mkEnv (fun n => 100 + 10 * Z.of_nat n) (fun _ => Ret doc_small) (fun _ => false).

(** A fresh module whose breaker has failed twice. *)
Definition world_two_failures : World :=
  snd (CircuitBreaker_call _fetch_metrics_internal env_flaky
         (snd (CircuitBreaker_call _fetch_metrics_internal env_flaky init_world))).

(** A breaker that opened at time 0 after five failures. *)
Definition world_open : World :=
  with_breaker (mkCB 5 30 5 (Some 0) OPEN) init_world.

(** A module holding a document cached at time 0. *)
Definition world_cached : World :=
  with_last_metrics_time (Some 0) (with_last_successful_metrics doc_small init_world).

(** The same, after the shutdown latch has been set. *)
Definition world_cached_shutdown : World := with_shutdown_event true world_cached.

(** ** The exposition format, as the specification writes it

    The text of section 6 of the specification, with its seven slots; the
    translator is compared with it. *)
Definition spec_exposition (version commit_hash build_timestamp : string)
    (agent_status tasks requests sessions : string) : string :=
  join nl
    [ "# HELP app_version_info Application version information.";
      "# TYPE app_version_info gauge";
      "app_version_info{version=" +:+ dq +:+ version +:+ dq
        +:+ ", commit_hash=" +:+ dq +:+ commit_hash +:+ dq
        +:+ ", build_timestamp=" +:+ dq +:+ build_timestamp +:+ dq +:+ "} 1";
      "# HELP app_agent_status Shows if the agent is running. (1 for running, 0 for not)";
      "# TYPE app_agent_status gauge";
      "app_agent_status " +:+ agent_status;
      "# HELP app_active_task_count The number of active tasks.";
      "# TYPE app_active_task_count gauge";
      "app_active_task_count " +:+ tasks;
      "# HELP app_active_request_count The number of active requests.";
      "# TYPE app_active_request_count gauge";
      "app_active_request_count " +:+ requests;
      "# HELP app_open_sessions_count The number of open sessions.";
      "# TYPE app_open_sessions_count gauge";
      "app_open_sessions_count " +:+ sessions ].

(** The text of a field of a dict, or [dflt] when the key is missing. *)
Definition field_text (fmt : json -> string) (m : gmap string json)
    (key dflt : string) : string :=
  match m !! key with
  | Some v => py_str fmt v
  | None => dflt
  end.

(** [{"buildInfo": null}] *)
Definition doc_null_build : json := JObj (<["buildInfo" := JNull]> ∅).

(** The upstream answers every request with that document. *)
Definition env_null_build : Env :=
  mkEnv (fun n => 10 * Z.of_nat n) (fun _ => Ret doc_null_build) (fun _ => false).

(** A rendering of floats and containers, for the examples. *)
Definition fmt_none : json -> string := fun _ => EmptyString.

(** The one-character text U+D800, a lone surrogate: bytes ED A0 80. *)
Definition lone_surrogate : string :=
  String (ascii_of_N 237) (String (ascii_of_N 160) (String (ascii_of_N 128) EmptyString)).

(** [{"buildInfo": {"version": "\ud800"}}], which [response.json()] accepts. *)
Definition doc_surrogate : json :=
  JObj (<["buildInfo" := JObj (<["version" := JStr lone_surrogate]> ∅)]> ∅).

(** The upstream answers every request with that document. *)
Definition env_surrogate : Env :=
  mkEnv (fun n => 10 * Z.of_nat n) (fun _ => Ret doc_surrogate) (fun _ => false).

(** ** The blocks of the retry loop, named for the statements below *)

(** The world after [healthcheck_failures['fetch'] += 1]. *)
Definition counted (w : World) : World :=
  with_healthcheck_failures
    (<["fetch" := failures "fetch" w + 1]> (healthcheck_failures w)) w.

(** The handler of a failed attempt that is not the last: the warning, when
    not draining, and the wait. *)
Definition retry_pause (attempt : Z) (e : exn) (retry_delay : Z) : M bool :=
  let* draining := get agent_draining in
  (if negb draining
   then logger WARNING (MsgRetrying (attempt + 1) e retry_delay)
   else ret tt) ;;
  wait retry_delay.

(** The handler of the last failed attempt. *)
Definition abandon (max_attempts : Z) (e : exn) : M json :=
  let* draining := get agent_draining in
  (if draining
   then logger INFO MsgAgentGone
   else logger ERROR (MsgGaveUp max_attempts e)) ;;
  let* cached := get last_successful_metrics in
  let* many :=
    (if is_not_None cached
     then let* n := dd_getitem "fetch" in ret (n >=? 3)
     else ret false) in
  if many
  then logger WARNING MsgStale ;; ret cached
  else raise e.

(** What a successful attempt does with the document. *)
Definition store (metrics_data : json) : M json :=
  modify (with_last_successful_metrics metrics_data) ;;
  let* now := time_time in
  modify (with_last_metrics_time (Some now)) ;;
  dd_setitem "fetch" 0 ;;
  ret metrics_data.

(** Everything but the breaker, the step counter and the trace. *)
Definition same_globals (w w' : World) : Prop :=
  MAX_RETRY_ATTEMPTS w' = MAX_RETRY_ATTEMPTS w /\
  RETRY_DELAY w' = RETRY_DELAY w /\
  shutdown_event w' = shutdown_event w /\
  agent_draining w' = agent_draining w /\
  last_successful_metrics w' = last_successful_metrics w /\
  last_metrics_time w' = last_metrics_time w /\
  metrics_cache_ttl w' = metrics_cache_ttl w /\
  healthcheck_failures w' = healthcheck_failures w.

(** A run of the retry loop, from iteration [attempt] on, in which every
    attempt fails and the latch is never seen set: [e] is the error of the
    last attempt and [w'] the world once that failure has been counted. *)
Inductive exhausts (env : Env) (max_attempts retry_delay : Z)
  : Z -> World -> exn -> World -> Prop :=
| exhausts_last (attempt : Z) (w w1 w2 w3 : World) (e : exn) :
    attempt = max_attempts - 1 ->
    is_set env w = (Ret false, w1) ->
    fetch_metrics_with_circuit_breaker env w1 = (Raise e, w2) ->
    dd_incr "fetch" env w2 = (Ret tt, w3) ->
    exhausts env max_attempts retry_delay attempt w e w3
| exhausts_retry (attempt : Z) (w w1 w2 w3 w4 w' : World) (e0 e : exn) :
    attempt < max_attempts - 1 ->
    is_set env w = (Ret false, w1) ->
    fetch_metrics_with_circuit_breaker env w1 = (Raise e0, w2) ->
    dd_incr "fetch" env w2 = (Ret tt, w3) ->
    retry_pause attempt e0 retry_delay env w3 = (Ret false, w4) ->
    exhausts env max_attempts retry_delay (attempt + 1) w4 e w' ->
    exhausts env max_attempts retry_delay attempt w e w'.

(** The outcome of [abandon] in a world whose "fetch" counter is present. *)
Definition abandon_result (max_attempts : Z) (e : exn) (w : World)
  : result json * World :=
  let w1 := record (EvLog (if agent_draining w then INFO else ERROR)
                          (if agent_draining w then MsgAgentGone
                           else MsgGaveUp max_attempts e)) w in
  if is_not_None (last_successful_metrics w) && (3 <=? failures "fetch" w)
  then (Ret (last_successful_metrics w), record (EvLog WARNING MsgStale) w1)
  else (Raise e, w1).

(** A draining module whose cached document, fetched at time -100, has
    expired. *)
Definition world_stale_draining : World :=
  mkWorld (CircuitBreaker_init 5 30) 30 5 false true doc_small (Some (-100)) 30 ∅ 0%nat [].

(** ** Several calls of the breaker in a row *)

(** [k] successive calls of [circuit_breaker.call(_fetch_metrics_internal)],
    whatever each of them returns or raises. *)
Definition calls (k : nat) (env : Env) (w : World) : World :=
  Nat.iter k (fun w0 => snd (CircuitBreaker_call _fetch_metrics_internal env w0)) w.

Definition is_failed_request (ev : Event) : bool :=
  match ev with EvRequest (Raise _) => true | _ => false end.

(** How often the wrapped operation ran and raised. *)
Definition failed_requests (l : list Event) : nat :=
  length (List.filter is_failed_request l).

Arguments failed_requests : simpl never.

(** The upstream fails the first and the third call of a fresh breaker and
    answers the second. *)
Definition env_hiccup : Env :=
  mkEnv (fun n => 10 * Z.of_nat n)
        (fun n => if (n =? 0)%nat || (n =? 3)%nat
                  then Raise (RequestException "Connection failed")
                  else Ret doc_small)
        (fun _ => false).

(** ** What a call of [fetch_metrics] leaves behind *)

(** The world after a successful attempt has stored its document. *)
Definition stored (v : json) (env : Env) (w : World) : World :=
  let now := clock env (steps w) in
  with_healthcheck_failures (<["fetch" := 0]> (healthcheck_failures w))
    (with_last_metrics_time (Some now)
       (tick (EvTime now) (with_last_successful_metrics v w))).

(** A cached document always comes with the time it was fetched. *)
Definition cache_paired (w : World) : Prop :=
  last_successful_metrics w <> JNull -> last_metrics_time w <> None.

(** What holds of the world [w'] in which the retry loop, started in [w]
    with [fuel] iterations to go, ends with the outcome [r]. *)
Definition loop_post (fuel : nat) (w : World) (r : result json) (w' : World) : Prop :=
  (MAX_RETRY_ATTEMPTS w' = MAX_RETRY_ATTEMPTS w /\
   RETRY_DELAY w' = RETRY_DELAY w /\
   agent_draining w' = agent_draining w /\
   metrics_cache_ttl w' = metrics_cache_ttl w) /\
  (shutdown_event w = true -> shutdown_event w' = true) /\
  (cache_paired w -> cache_paired w') /\
  (exists a i : nat,
     attempts (trace w') = (attempts (trace w) + a)%nat /\
     invocations (trace w') = (invocations (trace w) + i)%nat /\
     (i <= a)%nat /\
     (((exists v, r = Ret v) /\ failures "fetch" w' = 0) \/
      failures "fetch" w' = failures "fetch" w + Z.of_nat a)) /\
  (forall v, r = Ret v -> fuel <> 0%nat -> last_successful_metrics w' = v) /\
  (0 <= failures "fetch" w -> 0 <= failures "fetch" w').

(** ** Particular runs of [fetch_metrics] *)

(** The world in which the first attempt of a call is made: the latch has
    been read unset and the attempt recorded. *)
Definition first_attempt_world (w0 : World) : World :=
  record EvAttempt (tick (EvIsSet false) (with_shutdown_event false w0)).

(** The upstream answers every request with JSON [null]. *)
Definition env_null : Env :=
  mkEnv (fun n => 10 * Z.of_nat n) (fun _ => Ret JNull) (fun _ => false).

(** The upstream is down and the latch is set from step 3 on. *)
Definition env_down_then_signal : Env :=
  mkEnv (fun n => 10 * Z.of_nat n)
        (fun _ => Raise (RequestException "Connection failed"))
        (fun n => (3 <=? n)%nat).


(** A module that is not draining, configured with MAX_RETRY_ATTEMPTS=0. *)
Definition world_no_budget : World :=
  mkWorld (CircuitBreaker_init 5 30) 0 5 false false JNull None 30 ∅ 0%nat [].

(** ** The drain coordinator: [signal_handler] and [wait_for_agent_drain]

    The handler polls the agent directly, with [requests.get], and sleeps
    between polls.  Its clock readings and the answers to its polls are the
    oracles of a [DrainEnv]; what it did is logged in a [Drain].  Of the
    module's globals it writes [agent_draining] and [shutdown_event] and
    reads GRACE_PERIOD_SECONDS, which is taken as an argument.  The loop runs
    as long as the clock allows, so it is given [fuel]: [None] means that the
    fuel ran out before the loop ended. *)

(** What [requests.get(METRICS_ENDPOINT, timeout=5)] gives: a response with
    its status code, or an exception. *)
Inductive probe_result : Type :=
| ProbeStatus (status_code : Z)
| ProbeRaise (e : exn).

Inductive DrainMsg : Type :=
| MsgSignal (signum : Z)               (* "Received signal n, waiting for agent ..." *)
| MsgStillActive                       (* "Agent still active, continuing to serve metrics..." *)
| MsgStopped                           (* "Agent stopped responding, initiating shutdown" *)
| MsgInaccessible                      (* "Agent no longer accessible, initiating shutdown" *)
| MsgDrainDone                         (* "Grace period completed or agent finished draining" *)
| MsgExporterDown.                     (* "Shutting down metrics exporter" *)

Inductive DrainEvent : Type :=
| DrTime (t : Z)                       (* time.time() returned t *)
| DrProbe (r : probe_result)           (* requests.get ran, with this outcome *)
| DrSleep (seconds : Z)                (* time.sleep(seconds) *)
| DrLog (l : level) (m : DrainMsg).

Record DrainEnv : Type := mkDrainEnv {
  drain_clock : nat -> Z;
  probe : nat -> probe_result
}.

Record Drain : Type := mkDrain {
  drain_steps : nat;
  drain_trace : list DrainEvent
}.

Definition drain_tick (ev : DrainEvent) (d : Drain) : Drain :=
  mkDrain (S (drain_steps d)) (drain_trace d ++ [ev]).

Definition drain_record (ev : DrainEvent) (d : Drain) : Drain :=
  mkDrain (drain_steps d) (drain_trace d ++ [ev]).

(** [while time.time() - start_time < GRACE_PERIOD_SECONDS: ...] *)
Fixpoint drain_loop (fuel : nat) (GRACE_PERIOD_SECONDS start_time : Z)
    (denv : DrainEnv) (d : Drain) : option (result unit * Drain) :=
  match fuel with
  | O => None
  | S fuel' =>
      let now := drain_clock denv (drain_steps d) in
      let d1 := drain_tick (DrTime now) d in
      if now - start_time <? GRACE_PERIOD_SECONDS then
        let response := probe denv (drain_steps d1) in
        let d2 := drain_tick (DrProbe response) d1 in
        match response with
        | ProbeStatus status_code =>
            if status_code =? 200 then
              drain_loop fuel' GRACE_PERIOD_SECONDS start_time denv
                (drain_record (DrSleep 1)
                   (drain_record (DrLog DEBUG MsgStillActive) d2))
            else Some (Ret tt, drain_record (DrLog INFO MsgStopped) d2)
        | ProbeRaise (RequestException _) =>
            Some (Ret tt, drain_record (DrLog INFO MsgInaccessible) d2)
        | ProbeRaise e => Some (Raise e, d2)
        end
      else Some (Ret tt, d1)
  end.

Definition wait_for_agent_drain (fuel : nat) (GRACE_PERIOD_SECONDS : Z)
    (denv : DrainEnv) (d : Drain) : option (result unit * Drain) :=
  let start_time := drain_clock denv (drain_steps d) in
  match drain_loop fuel GRACE_PERIOD_SECONDS start_time denv
          (drain_tick (DrTime start_time) d) with
  | Some (Ret _, d') => Some (Ret tt, drain_record (DrLog INFO MsgDrainDone) d')
  | other => other
  end.

Definition with_agent_draining (b : bool) (w : World) : World :=
  mkWorld (circuit_breaker w) (MAX_RETRY_ATTEMPTS w) (RETRY_DELAY w)
    (shutdown_event w) b (last_successful_metrics w) (last_metrics_time w)
    (metrics_cache_ttl w) (healthcheck_failures w) (steps w) (trace w).

(** How the handler ends: [sys.exit(code)], or an exception of the drain loop
    that nothing catches. *)
Inductive handler_outcome : Type :=
| SystemExit (code : Z)
| Uncaught (e : exn).

Definition signal_handler (fuel : nat) (signum GRACE_PERIOD_SECONDS : Z)
    (denv : DrainEnv) (w : World) (d : Drain)
  : option (handler_outcome * World * Drain) :=
  let d0 := drain_record (DrLog INFO (MsgSignal signum)) d in
  let w1 := with_agent_draining true w in
  match wait_for_agent_drain fuel GRACE_PERIOD_SECONDS denv d0 with
  | None => None
  | Some (Raise e, d') => Some (Uncaught e, w1, d')
  | Some (Ret _, d') =>
      Some (SystemExit 0, with_shutdown_event true w1,
            drain_record (DrLog INFO MsgExporterDown) d')
  end.

(** How often the agent was polled, and the sleeps between polls. *)
Definition polls (l : list DrainEvent) : nat :=
  length (List.filter (fun ev => match ev with DrProbe _ => true | _ => false end) l).

Definition sleeps (l : list DrainEvent) : list Z :=
  flat_map (fun ev => match ev with DrSleep s => [s] | _ => [] end) l.

Arguments polls : simpl never.
Arguments sleeps : simpl never.

(** A poll that ends the drain: a status other than 200, or an exception of
    [requests]. *)
Definition agent_gone (r : probe_result) : Prop :=
  match r with
  | ProbeStatus status_code => status_code <> 200
  | ProbeRaise (RequestException _) => True
  | ProbeRaise _ => False
  end.

Definition drain_start : Drain := mkDrain 0 [].

(** The agent answers 200 once and then refuses the connection; a second
    passes between two readings of the clock. *)
Definition denv_agent_leaves : DrainEnv :=
  mkDrainEnv (fun n => Z.of_nat n)
             (fun n => if (n <=? 2)%nat then ProbeStatus 200
                       else ProbeRaise (RequestException "Connection failed")).

(** The agent answers 200 for ever. *)
Definition denv_agent_stays : DrainEnv :=
  mkDrainEnv (fun n => Z.of_nat n) (fun _ => ProbeStatus 200).

(** ** The documents the translator accepts *)

(** A JSON object whose [buildInfo], when present, is a JSON object. *)
Definition translatable (doc : json) : Prop :=
  exists m : gmap string json,
    doc = JObj m /\
    (m !! "buildInfo" = None \/ exists bi, m !! "buildInfo" = Some (JObj bi)).

(** The keys [convert_to_prometheus] reads in the document and in its
    [buildInfo]. *)
Definition document_keys : list string :=
  ["buildInfo"; "agentStatus"; "activeTaskCount"; "activeRequestCount";
   "openSessionsCount"].

Definition build_info_keys : list string :=
  ["version"; "commitHash"; "buildTimestamp"].

(** [{"buildInfo": {"version": "1.2.3"}, "agentStatus": "RUNNING"}] *)
Definition doc_running : json :=
  JObj (<["buildInfo" := JObj (<["version" := JStr "1.2.3"]> ∅)]>
          (<["agentStatus" := JStr "RUNNING"]> ∅)).

(** * Properties *)

Ltac unfold_monad :=
  unfold fetch_metrics_with_circuit_breaker, CircuitBreaker_call,
    _fetch_metrics_internal, dd_incr, dd_setitem, dd_getitem, logger, wait,
    is_set, time_time, set_state, set_failure_count, set_last_failure_time,
    try_except, bind, get, modify, ret, raise, lift_result in *.

Lemma invocations_app (l1 l2 : list Event) :
  invocations (l1 ++ l2) = (invocations l1 + invocations l2)%nat.
Proof. unfold invocations. rewrite List.filter_app, length_app. reflexivity. Qed.

Lemma attempts_app (l1 l2 : list Event) :
  attempts (l1 ++ l2) = (attempts l1 + attempts l2)%nat.
Proof. unfold attempts. rewrite List.filter_app, length_app. reflexivity. Qed.

Lemma waits_app (l1 l2 : list Event) : waits (l1 ++ l2) = waits l1 ++ waits l2.
Proof. unfold waits. apply flat_map_app. Qed.

Lemma cb_wf_init (threshold timeout : Z) :
  cb_wf (CircuitBreaker_init threshold timeout).
Proof. unfold cb_wf. simpl. discriminate. Qed.

(** [call] keeps the invariant, whatever the operation does. *)
Lemma cb_wf_call (env : Env) (w : World) :
  cb_wf (circuit_breaker w) ->
  cb_wf (circuit_breaker (snd (CircuitBreaker_call _fetch_metrics_internal env w))).
Proof.
  destruct w as [[thr rt cnt lft st] mx dl sh dr lsm lmt ttl hf n tr].
  unfold cb_wf. unfold_monad. cbn. intros Hwf.
  destruct st; cbn.
  - destruct (upstream env n); cbn; [discriminate|].
    destruct (Z.geb_spec (cnt + 1) thr); cbn; [|discriminate].
    intros _. split; [lia|discriminate].
  - destruct lft as [t|]; cbn; [|exact Hwf].
    destruct (clock env n - t >? rt); cbn; [|exact Hwf].
    destruct (upstream env (S n)); cbn; [discriminate|].
    destruct (Z.geb_spec (cnt + 1) thr); cbn; [|discriminate].
    intros _. split; [lia|discriminate].
  - destruct (upstream env n); cbn; [discriminate|].
    destruct (Z.geb_spec (cnt + 1) thr); cbn; [|discriminate].
    intros _. split; [lia|discriminate].
Qed.

(** ** The circuit breaker *)

(** C1.  A call on an open breaker.  While the time since the last failure
    does not exceed the recovery time-out, the call raises the circuit-open
    error and the operation is not invoked.  Once it exceeds it, the breaker
    goes to HALF_OPEN and the same call invokes the operation once, from the
    half-open state: a success closes the breaker with the count at 0, a
    failure re-raises, stamps the time, adds one to the count and opens the
    breaker again. *)
Theorem open_breaker_gate (env : Env) (w : World) :
  let b := circuit_breaker w in
  let now := clock env (steps w) in
  state b = OPEN ->
  cb_wf b ->
  exists t, last_failure_time b = Some t /\
  (now - t <= recovery_timeout b ->
     CircuitBreaker_call _fetch_metrics_internal env w
       = (Raise CircuitOpenError, tick (EvTime now) w)
     /\ invocations (trace (tick (EvTime now) w)) = invocations (trace w)) /\
  (recovery_timeout b < now - t ->
     state (circuit_breaker (half_open_world env w)) = HALF_OPEN /\
     (forall (A : Type) (func : M A),
        CircuitBreaker_call func env w
          = CircuitBreaker_call func env (half_open_world env w)) /\
     exists w',
       CircuitBreaker_call _fetch_metrics_internal env w
         = (upstream env (S (steps w)), w') /\
       invocations (trace w') = S (invocations (trace w)) /\
       match upstream env (S (steps w)) with
       | Ret _ =>
           circuit_breaker w'
             = mkCB (failure_threshold b) (recovery_timeout b) 0
                    (last_failure_time b) CLOSED
       | Raise _ =>
           circuit_breaker w'
             = mkCB (failure_threshold b) (recovery_timeout b)
                    (failure_count b + 1)
                    (Some (clock env (S (S (steps w))))) OPEN
       end).
Proof.
  destruct w as [[thr rt cnt lft st] mx dl sh dr lsm lmt ttl hf n tr].
  cbn. intros -> Hwf. destruct (Hwf eq_refl) as [Hthr Hlft]. cbn in *.
  destruct lft as [t|]; [|congruence]. exists t. split; [reflexivity|]. split.
  - intros Hle. unfold_monad. cbn.
    destruct (Z.gtb_spec (clock env n - t) rt); [lia|]. cbn. split; [reflexivity|].
    rewrite invocations_app; unfold invocations; simpl; lia.
  - intros Hlt. split; [reflexivity|]. split.
    + intros A func. unfold_monad. cbn.
      destruct (Z.gtb_spec (clock env n - t) rt); [|lia]. reflexivity.
    + unfold_monad. cbn.
      destruct (Z.gtb_spec (clock env n - t) rt); [|lia]. cbn.
      destruct (upstream env (S n)) as [v|e]; cbn.
      * eexists. split; [reflexivity|]. cbn. split; [|reflexivity].
        rewrite <- !app_assoc, invocations_app; unfold invocations; simpl; lia.
      * destruct (Z.geb_spec (cnt + 1) thr); [|lia]. cbn.
        eexists. split; [reflexivity|]. cbn. split; [|reflexivity].
        rewrite <- !app_assoc, invocations_app; unfold invocations; simpl; lia.
Qed.

(** The breaker of [world_open] is asked at time 0 and rejects the call. *)
Lemma open_breaker_gate_witness :
  state (circuit_breaker world_open) = OPEN /\
  cb_wf (circuit_breaker world_open) /\
  CircuitBreaker_call _fetch_metrics_internal env_down world_open
    = (Raise CircuitOpenError, tick (EvTime 0) world_open).
Proof.
  assert (Hs : state (circuit_breaker world_open) = OPEN) by reflexivity.
  assert (Hwf : cb_wf (circuit_breaker world_open)).
  { intros _. simpl. split; [lia | discriminate]. }
  split; [exact Hs|]. split; [exact Hwf|].
  destruct (open_breaker_gate env_down world_open Hs Hwf) as [t [Ht [Hclosed _]]].
  simpl in Ht. injection Ht as <-.
  apply Hclosed. simpl. lia.
Defined.

(** C3, as the claim has it, fails: [world_two_failures] is closed with two
    failures counted, and a successful call leaves the count at 2. *)
Lemma success_resets_count_counterexample :
  ~ (forall (env : Env) (w w' : World) (v : json),
       CircuitBreaker_call _fetch_metrics_internal env w = (Ret v, w') ->
       failure_count (circuit_breaker w') = 0).
Proof.
  intros H.
  specialize (H env_flaky world_two_failures
                (snd (CircuitBreaker_call _fetch_metrics_internal env_flaky
                        world_two_failures)) doc_small).
  vm_compute in H. specialize (H eq_refl). discriminate.
Qed.

(** C3, amended.  A call whose operation succeeds leaves the breaker closed;
    the count is reset to 0 when the call was made with the breaker not
    closed (the half-open probe), and is left as it was when the breaker
    was closed. *)
Theorem success_resets_only_half_open (env : Env) (w w' : World) (v : json) :
  CircuitBreaker_call _fetch_metrics_internal env w = (Ret v, w') ->
  state (circuit_breaker w') = CLOSED /\
  (state (circuit_breaker w) = CLOSED ->
     failure_count (circuit_breaker w') = failure_count (circuit_breaker w)) /\
  (state (circuit_breaker w) <> CLOSED ->
     failure_count (circuit_breaker w') = 0).
Proof.
  destruct w as [[thr rt cnt lft st] mx dl sh dr lsm lmt ttl hf n tr].
  unfold_monad. cbn.
  destruct st; cbn.
  - destruct (upstream env n); cbn; [|destruct (cnt + 1 >=? thr); discriminate].
    intros [= <- <-]. cbn. repeat split; congruence.
  - destruct lft as [t|]; cbn; [|discriminate].
    destruct (clock env n - t >? rt); cbn; [|discriminate].
    destruct (upstream env (S n)); cbn; [|destruct (cnt + 1 >=? thr); discriminate].
    intros [= <- <-]. cbn. repeat split; congruence.
  - destruct (upstream env n); cbn; [|destruct (cnt + 1 >=? thr); discriminate].
    intros [= <- <-]. cbn. repeat split; congruence.
Qed.

(** An open breaker, asked 100 seconds after its last failure, probes an
    upstream that answers: it closes and the count is 0. *)
Lemma success_resets_only_half_open_witness :
  let w := world_open in
  let r := CircuitBreaker_call _fetch_metrics_internal env_up w in
  fst r = Ret doc_small /\
  state (circuit_breaker (snd r)) = CLOSED /\
  failure_count (circuit_breaker (snd r)) = 0.
Proof.
  intros w r.
  assert (Hr : r = (Ret doc_small, snd r)) by (vm_compute; reflexivity).
  destruct (success_resets_only_half_open env_up w (snd r) doc_small Hr)
    as [Hst [_ Hreset]].
  split; [rewrite Hr; reflexivity|]. split; [exact Hst|].
  apply Hreset. simpl. discriminate.
Defined.

(** ** The fetcher: the cache *)

Lemma cache_is_fresh_true (env : Env) (w : World) (t : Z) :
  last_successful_metrics w <> JNull ->
  last_metrics_time w = Some t ->
  clock env (steps w) - t < metrics_cache_ttl w ->
  cache_is_fresh env w = (Ret true, tick (EvTime (clock env (steps w))) w).
Proof.
  intros Hdoc Ht Hlt. unfold cache_is_fresh. unfold_monad.
  destruct (last_successful_metrics w); try congruence; cbn;
    rewrite Ht; cbn; destruct (Z.ltb_spec (clock env (steps w) - t) (metrics_cache_ttl w));
    try lia; reflexivity.
Qed.

Lemma fetch_metrics_unfold (env : Env) (w : World) :
  fetch_metrics env w =
  match cache_is_fresh env w with
  | (Ret true, w1) =>
      (Ret (last_successful_metrics w1), record (EvLog DEBUG MsgCached) w1)
  | (Ret false, w1) =>
      fetch_loop (Z.to_nat (max_attempts_of w)) 0 (max_attempts_of w)
        (retry_delay_of w) env w1
  | (Raise e, w1) => (Raise e, w1)
  end.
Proof.
  unfold fetch_metrics, max_attempts_of, retry_delay_of.
  unfold bind, get, ret, logger, modify. cbv beta iota.
  destruct (agent_draining w) eqn:Had; cbv beta iota; rewrite Had; cbv beta iota;
    destruct (cache_is_fresh env w) as [[[|]|e] w1]; reflexivity.
Qed.

(** The run of [fetch_metrics] on a fresh cache entry. *)
Lemma fresh_cache_run (env : Env) (w : World) (t : Z) :
  last_successful_metrics w <> JNull ->
  last_metrics_time w = Some t ->
  clock env (steps w) - t < metrics_cache_ttl w ->
  fetch_metrics env w
    = (Ret (last_successful_metrics w),
       record (EvLog DEBUG MsgCached) (tick (EvTime (clock env (steps w))) w)).
Proof.
  intros Hdoc Ht Hlt.
  rewrite fetch_metrics_unfold, (cache_is_fresh_true env w t Hdoc Ht Hlt).
  reflexivity.
Qed.

(** C5.  With a cache entry younger than the time-to-live (30 s unless
    changed), [fetch_metrics] returns the cached document at once: the
    operation is not invoked, no attempt is made, and the breaker, the cache
    entry and the failure counters are as before. *)
Theorem fresh_cache_served (env : Env) (w : World) (t : Z) :
  let now := clock env (steps w) in
  last_successful_metrics w <> JNull ->
  last_metrics_time w = Some t ->
  now - t < metrics_cache_ttl w ->
  exists w',
    fetch_metrics env w = (Ret (last_successful_metrics w), w') /\
    trace w' = trace w ++ [EvTime now; EvLog DEBUG MsgCached] /\
    invocations (trace w') = invocations (trace w) /\
    attempts (trace w') = attempts (trace w) /\
    circuit_breaker w' = circuit_breaker w /\
    last_successful_metrics w' = last_successful_metrics w /\
    last_metrics_time w' = last_metrics_time w /\
    healthcheck_failures w' = healthcheck_failures w /\
    metrics_cache_ttl init_world = 30.
Proof.
  intros now Hdoc Ht Hlt.
  exists (record (EvLog DEBUG MsgCached) (tick (EvTime now) w)).
  split.
  - apply (fresh_cache_run env w t Hdoc Ht Hlt).
  - cbn. rewrite <- app_assoc. cbn. repeat split; try reflexivity.
    + rewrite invocations_app. unfold invocations. simpl. lia.
    + rewrite attempts_app. unfold attempts. simpl. lia.
Qed.

(** The document cached at time 0 is served at time 0. *)
Lemma fresh_cache_served_witness :
  fst (fetch_metrics env_down world_cached) = Ret doc_small /\
  invocations (trace (snd (fetch_metrics env_down world_cached))) = 0%nat.
Proof.
  destruct (fresh_cache_served env_down world_cached 0) as [w' [Hrun [_ [Hinv _]]]].
  - discriminate.
  - reflexivity.
  - simpl. lia.
  - rewrite Hrun. split; [reflexivity | exact Hinv].
Defined.

(** C10.  With the shutdown latch set, a fresh cache entry is still served:
    the latch is not consulted on that path.  It is consulted at the start
    of a loop iteration, so without a fresh entry (and with a positive
    budget) the call raises the shutdown error before any attempt. *)
Theorem fresh_cache_before_shutdown (env : Env) (w : World) (t : Z) :
  shutdown_event w = true ->
  (last_successful_metrics w <> JNull ->
   last_metrics_time w = Some t ->
   clock env (steps w) - t < metrics_cache_ttl w ->
   exists w',
     fetch_metrics env w = (Ret (last_successful_metrics w), w') /\
     trace w' = trace w ++ [EvTime (clock env (steps w)); EvLog DEBUG MsgCached]) /\
  (fst (cache_is_fresh env w) = Ret false ->
   0 < max_attempts_of w ->
   let w1 := snd (cache_is_fresh env w) in
   fetch_metrics env w
     = (Raise ShutdownFetchError, tick (EvIsSet true) (with_shutdown_event true w1))).
Proof.
  intros Hlatch. split.
  - intros Hdoc Ht Hlt.
    exists (record (EvLog DEBUG MsgCached) (tick (EvTime (clock env (steps w))) w)).
    split; [apply (fresh_cache_run env w t Hdoc Ht Hlt)|].
    cbn. rewrite <- app_assoc. reflexivity.
  - intros Hstale Hpos w1. rewrite fetch_metrics_unfold.
    destruct (cache_is_fresh env w) as [r w0] eqn:Hf. simpl in Hstale. subst r.
    subst w1. simpl.
    assert (Hlatch0 : shutdown_event w0 = true).
    { revert Hf. unfold cache_is_fresh. unfold_monad.
      destruct (is_not_None (last_successful_metrics w)); [|intros [= <-]; exact Hlatch].
      destruct (last_metrics_time w); [|intros [= <-]; exact Hlatch].
      intros [= _ <-]. exact Hlatch. }
    destruct (Z.to_nat (max_attempts_of w)) as [|fuel] eqn:Hfuel; [lia|].
    simpl. unfold_monad. rewrite Hlatch0. reflexivity.
Qed.

(** The latch is set and the document cached at time 0 is served at time 0. *)
Lemma fresh_cache_before_shutdown_witness :
  shutdown_event world_cached_shutdown = true /\
  fst (fetch_metrics env_down world_cached_shutdown) = Ret doc_small.
Proof.
  split; [reflexivity|].
  destruct (fresh_cache_before_shutdown env_down world_cached_shutdown 0 eq_refl)
    as [Hfresh _].
  destruct Hfresh as [w' [Hrun _]].
  - discriminate.
  - reflexivity.
  - simpl. lia.
  - rewrite Hrun. reflexivity.
Defined.

(** ** [/health] *)

(** C8.  [/health] answers 503 "Shutting down" when the latch is set, whatever
    the failure counter; otherwise 503 "Too many fetch failures" when the
    "fetch" counter is above 10; otherwise 200 "OK".  It reads the latch
    once and neither attempts a fetch nor invokes the upstream. *)
Theorem health_response (env : Env) (w : World) :
  let latch := shutdown_event w || signal env (steps w) in
  let n := failures "fetch" w in
  exists w',
    health env w =
      (Ret (if latch then mkResponse "Shutting down" 503 "text/plain"
            else if 10 <? n then mkResponse "Too many fetch failures" 503 "text/plain"
            else mkResponse "OK" 200 "text/plain"), w') /\
    trace w' = trace w ++ [EvIsSet latch] /\
    invocations (trace w') = invocations (trace w) /\
    attempts (trace w') = attempts (trace w) /\
    circuit_breaker w' = circuit_breaker w /\
    last_successful_metrics w' = last_successful_metrics w /\
    last_metrics_time w' = last_metrics_time w /\
    failures "fetch" w' = failures "fetch" w.
Proof.
  intros latch n. unfold health. unfold_monad. fold latch.
  unfold n, failures. destruct latch; cbn.
  - eexists. split; [reflexivity|]. cbn.
    rewrite invocations_app, attempts_app. unfold invocations, attempts. simpl.
    repeat split; lia.
  - destruct (healthcheck_failures w !! "fetch") as [v|] eqn:Hv; cbn.
    + rewrite Z.gtb_ltb. destruct (10 <? v); eexists; (split; [reflexivity|]); cbn;
        rewrite invocations_app, attempts_app, ?Hv; unfold invocations, attempts; simpl;
        repeat split; lia.
    + eexists. split; [reflexivity|]. cbn.
      rewrite invocations_app, attempts_app, lookup_insert_eq. unfold invocations, attempts; simpl.
      repeat split; lia.
Qed.

(** ** The format translator *)

(** C7, as the claim has it, fails: on [{"buildInfo": null}] the translator
    calls [.get] on [None] and raises. *)
Lemma translator_total_counterexample :
  ~ (forall (fmt : json -> string) (doc : json),
       exists text, convert_to_prometheus fmt doc = Ret text).
Proof.
  intros H. destruct (H fmt_none doc_null_build) as [text Htext].
  vm_compute in Htext. discriminate.
Qed.

Lemma is_RUNNING_spec (v : json) : is_RUNNING v = true <-> v = JStr "RUNNING".
Proof.
  destruct v; simpl; try (split; [discriminate | intros [=]]).
  rewrite String.eqb_eq. split; [intros ->; reflexivity | intros [= ->]; reflexivity].
Qed.

(** C7, amended.  On a JSON object whose [buildInfo] is absent or is itself
    an object the translator returns the exposition text; each missing field
    shows its default (version and commit hash "unknown", build timestamp 0,
    counts 0); the agent status is 1 exactly when [agentStatus] is the string
    "RUNNING" and 0 otherwise; and the empty document gives all defaults. *)
Theorem translator_defaults (fmt : json -> string) (m bi : gmap string json) :
  (m !! "buildInfo" = None /\ bi = ∅) \/ m !! "buildInfo" = Some (JObj bi) ->
  (exists st : Z,
     convert_to_prometheus fmt (JObj m)
       = Ret (spec_exposition (field_text fmt bi "version" "unknown")
                         (field_text fmt bi "commitHash" "unknown")
                         (field_text fmt bi "buildTimestamp" "0")
                         (pretty st)
                         (field_text fmt m "activeTaskCount" "0")
                         (field_text fmt m "activeRequestCount" "0")
                         (field_text fmt m "openSessionsCount" "0")) /\
     (st = 1 <-> m !! "agentStatus" = Some (JStr "RUNNING")) /\
     (st = 0 \/ st = 1)) /\
  convert_to_prometheus fmt (JObj ∅)
    = Ret (spec_exposition "unknown" "unknown" "0" "0" "0" "0" "0").
Proof.
  intros Hbi. split; [|reflexivity].
  exists (if is_RUNNING (default (JStr EmptyString) (m !! "agentStatus")) then 1 else 0).
  split; [|split].
  - unfold convert_to_prometheus, spec_exposition, field_text, dict_get, rbind.
    assert (Hb : default (JObj ∅) (m !! "buildInfo") = JObj bi).
    { destruct Hbi as [[-> ->] | ->]; reflexivity. }
    rewrite Hb. cbv beta iota.
    destruct (bi !! "version"), (bi !! "commitHash"), (bi !! "buildTimestamp"),
      (m !! "activeTaskCount"), (m !! "activeRequestCount"),
      (m !! "openSessionsCount"); reflexivity.
  - destruct (m !! "agentStatus") as [v|]; simpl.
    + destruct (is_RUNNING v) eqn:Hv.
      * apply is_RUNNING_spec in Hv. subst v. split; reflexivity || auto.
      * split; [discriminate|]. intros [= ->]. simpl in Hv. discriminate.
    + split; discriminate.
  - destruct (is_RUNNING _); auto.
Qed.

(** The empty document. *)
Lemma translator_defaults_witness :
  convert_to_prometheus fmt_none (JObj ∅)
    = Ret (spec_exposition "unknown" "unknown" "0" "0" "0" "0" "0").
Proof.
  apply (translator_defaults fmt_none ∅ ∅). left. split; reflexivity.
Defined.

(** ** [/metrics] *)

(** The fallback document is plain ASCII: its response is always built. *)
Lemma fallback_response :
  Response_init (join nl minimal_metrics) 200 "text/plain"
  = Ret (mkResponse (join nl minimal_metrics) 200 "text/plain").
Proof. vm_compute. reflexivity. Qed.

(** The three ways of [/metrics] into its handler, and the one past it. *)
Lemma metrics_run (fmt : json -> string) (env : Env) (w : World) :
  metrics fmt env w =
    match fetch_metrics env w with
    | (Ret doc, w1) =>
        match convert_to_prometheus fmt doc with
        | Ret text =>
            if has_surrogate text
            then (Ret (mkResponse (join nl minimal_metrics) 200 "text/plain"),
                  record (EvLog ERROR (MsgMetricsError UnicodeEncodeError)) w1)
            else (Ret (mkResponse text 200 "text/plain"), w1)
        | Raise e =>
            (Ret (mkResponse (join nl minimal_metrics) 200 "text/plain"),
             record (EvLog ERROR (MsgMetricsError e)) w1)
        end
    | (Raise e, w1) =>
        (Ret (mkResponse (join nl minimal_metrics) 200 "text/plain"),
         record (EvLog ERROR (MsgMetricsError e)) w1)
    end.
Proof.
  unfold metrics, try_except, bind, lift_result, logger, modify, ret.
  destruct (fetch_metrics env w) as [[doc|e] w1].
  - destruct (convert_to_prometheus fmt doc) as [text|e].
    + unfold Response_init at 1.
      destruct (has_surrogate text); [rewrite fallback_response|]; reflexivity.
    + rewrite fallback_response. reflexivity.
  - rewrite fallback_response. reflexivity.
Qed.

(** The way into the handler from the constructor is taken: the upstream
    answers a version that is a lone surrogate, the fetch and the translation
    succeed, the text cannot be encoded, and the fallback is served. *)
Lemma metrics_surrogate_fallback :
  fst (fetch_metrics env_surrogate init_world) = Ret doc_surrogate /\
  (exists text, convert_to_prometheus fmt_none doc_surrogate = Ret text /\
                has_surrogate text = true) /\
  fst (metrics fmt_none env_surrogate init_world)
    = Ret (mkResponse (join nl minimal_metrics) 200 "text/plain").
Proof.
  split; [vm_compute; reflexivity|]. split.
  - eexists. split; [reflexivity | vm_compute; reflexivity].
  - vm_compute. reflexivity.
Qed.

(** C2, as the claim has it, fails: the upstream answers [{"buildInfo": null}],
    [fetch_metrics] succeeds, and the body is not a translation of that
    document (there is none). *)
Lemma metrics_body_counterexample :
  ~ (forall (fmt : json -> string) (env : Env) (w : World),
       exists resp w',
         metrics fmt env w = (Ret resp, w') /\
         status resp = 200 /\
         (forall doc w1, fetch_metrics env w = (Ret doc, w1) ->
                         convert_to_prometheus fmt doc = Ret (body resp)) /\
         (forall e w1, fetch_metrics env w = (Raise e, w1) ->
                       body resp = join nl minimal_metrics)).
Proof.
  intros H.
  destruct (H fmt_none env_null_build init_world) as [resp [w' [_ [_ [Hok _]]]]].
  specialize (Hok doc_null_build (snd (fetch_metrics env_null_build init_world))).
  assert (Hrun : fetch_metrics env_null_build init_world
                 = (Ret doc_null_build, snd (fetch_metrics env_null_build init_world)))
    by (vm_compute; reflexivity).
  specialize (Hok Hrun). vm_compute in Hok. discriminate.
Qed.

(** C2, amended.  [/metrics] always answers with status 200.  The body is the
    translated text when [fetch_metrics] succeeds, the translator accepts the
    document and the text can be encoded (it holds no lone surrogate); it is
    the minimal fallback document (active task count 0, active request count
    0, agent status 0) when [fetch_metrics] fails, and also when the
    translator raises on the fetched document or the response cannot be built
    from the translated text. *)
Theorem metrics_always_200 (fmt : json -> string) (env : Env) (w : World) :
  exists resp w',
    metrics fmt env w = (Ret resp, w') /\
    status resp = 200 /\
    match fetch_metrics env w with
    | (Ret doc, _) =>
        match convert_to_prometheus fmt doc with
        | Ret text =>
            if has_surrogate text then body resp = join nl minimal_metrics
            else body resp = text
        | Raise _ => body resp = join nl minimal_metrics
        end
    | (Raise _, _) => body resp = join nl minimal_metrics
    end /\
    "app_active_task_count 0" ∈ minimal_metrics /\
    "app_active_request_count 0" ∈ minimal_metrics /\
    "app_agent_status 0" ∈ minimal_metrics.
Proof.
  rewrite metrics_run.
  destruct (fetch_metrics env w) as [[doc|e] w1].
  - destruct (convert_to_prometheus fmt doc) as [text|e];
      [destruct (has_surrogate text)|];
      eexists; eexists; (split; [reflexivity|]); cbn [status body];
      repeat split; unfold minimal_metrics; set_solver.
  - eexists; eexists; (split; [reflexivity|]); cbn [status body];
      repeat split; unfold minimal_metrics; set_solver.
Qed.

(** ** The fetcher: the retry loop *)

Lemma dd_incr_counted (env : Env) (w : World) :
  dd_incr "fetch" env w = (Ret tt, counted w).
Proof.
  unfold dd_incr, dd_getitem, dd_setitem, bind, modify, counted, failures.
  destruct (healthcheck_failures w !! "fetch") eqn:Hv; simpl; [reflexivity|].
  rewrite insert_insert_eq. reflexivity.
Qed.

Lemma fetch_loop_S (fuel : nat) (attempt max_attempts retry_delay : Z)
    (env : Env) (w : World) :
  fetch_loop (S fuel) attempt max_attempts retry_delay env w =
  let b := shutdown_event w || signal env (steps w) in
  let w1 := tick (EvIsSet b) (with_shutdown_event b w) in
  if b then (Raise ShutdownFetchError, w1)
  else
    match fetch_metrics_with_circuit_breaker env w1 with
    | (Ret v, w2) => store v env w2
    | (Raise e, w2) =>
        if attempt <? max_attempts - 1 then
          match retry_pause attempt e retry_delay env (counted w2) with
          | (Ret false, w4) =>
              fetch_loop fuel (attempt + 1) max_attempts retry_delay env w4
          | (Ret true, w4) => (Raise ShutdownWaitError, w4)
          | (Raise x, w4) => (Raise x, w4)
          end
        else abandon max_attempts e env (counted w2)
    end.
Proof.
  cbn [fetch_loop]. unfold bind at 1. unfold is_set at 1. cbv zeta.
  destruct (shutdown_event w || signal env (steps w)); [reflexivity|].
  unfold bind at 1. unfold try_except at 1. unfold bind at 1.
  destruct (fetch_metrics_with_circuit_breaker env _) as [[v|e] w2].
  - reflexivity.
  - unfold bind at 1. rewrite dd_incr_counted.
    destruct (attempt <? max_attempts - 1).
    + unfold retry_pause. unfold bind, get, ret, raise, logger, modify, wait. cbv beta iota.
      destruct (negb (agent_draining (counted w2))); cbv beta iota zeta.
      * simpl. destruct (shutdown_event w2 || signal env (steps w2)); reflexivity.
      * simpl. destruct (shutdown_event w2 || signal env (steps w2)); reflexivity.
    + unfold abandon. unfold bind, get, ret, raise, logger, modify, dd_getitem. cbv beta iota.
      destruct (agent_draining (counted w2)); cbv beta iota;
        destruct (is_not_None _); cbv beta iota; simpl;
        rewrite ?lookup_insert_eq; simpl;
        try (match goal with |- context [?x >=? 3] => destruct (x >=? 3) end);
        reflexivity.
Qed.

Ltac count_events :=
  rewrite <- ?app_assoc, ?invocations_app, ?attempts_app, ?waits_app;
  unfold invocations, attempts, waits; simpl; rewrite ?app_nil_r; try reflexivity; try lia.

Lemma attempt_effect (env : Env) (w w' : World) (r : result json) :
  fetch_metrics_with_circuit_breaker env w = (r, w') ->
  same_globals w w' /\
  attempts (trace w') = S (attempts (trace w)) /\
  waits (trace w') = waits (trace w) /\
  (steps w <= steps w')%nat.
Proof.
  destruct w as [[thr rt cnt lft st] mx dl sh dr lsm lmt ttl hf n tr].
  unfold same_globals. unfold_monad. cbn.
  destruct st; cbn;
    [ | destruct lft as [t|]; cbn; [destruct (clock env n - t >? rt); cbn|] | ];
    try (destruct (upstream env _); cbn; try destruct (cnt + 1 >=? thr); cbn);
    intros [= <- <-]; cbn; repeat split; count_events.
Qed.


Lemma attempt_wf (env : Env) (w : World) :
  cb_wf (circuit_breaker w) ->
  cb_wf (circuit_breaker (snd (fetch_metrics_with_circuit_breaker env w))).
Proof.
  intros Hwf. apply (cb_wf_call env (record EvAttempt w)). exact Hwf.
Qed.

Lemma is_set_false (env : Env) (w w1 : World) :
  is_set env w = (Ret false, w1) ->
  shutdown_event w || signal env (steps w) = false /\
  w1 = tick (EvIsSet false) (with_shutdown_event false w).
Proof.
  unfold is_set. intros [= Hb <-]. rewrite Hb. split; reflexivity.
Qed.

Lemma retry_pause_false (env : Env) (w w4 : World) (attempt : Z) (e : exn) (d : Z) :
  retry_pause attempt e d env w = (Ret false, w4) ->
  same_globals w w4 /\ shutdown_event w4 = false /\
  circuit_breaker w4 = circuit_breaker w /\
  attempts (trace w4) = attempts (trace w) /\
  waits (trace w4) = waits (trace w) ++ [d] /\
  (steps w <= steps w4)%nat.
Proof.
  destruct w as [cb mx dl sh dr lsm lmt ttl hf n tr].
  unfold retry_pause, same_globals. unfold_monad. cbn.
  destruct dr; cbn; intros [= Hb <-]; cbn; rewrite ?Hb;
    repeat split; try (destruct sh; simpl in Hb; congruence); count_events.
Qed.

Lemma abandon_counted (env : Env) (w : World) (max_attempts : Z) (e : exn) :
  abandon max_attempts e env (counted w) = abandon_result max_attempts e (counted w).
Proof.
  unfold abandon, abandon_result, failures.
  unfold bind, get, ret, raise, logger, modify, dd_getitem. cbv beta iota.
  destruct w as [cb mx dl sh dr lsm lmt ttl hf n tr]. unfold counted. cbn.
  rewrite lookup_insert_eq. cbn.
  destruct dr; cbn; destruct (is_not_None lsm); cbn; rewrite ?lookup_insert_eq; cbn;
    rewrite ?Z.geb_leb; try (match goal with |- context [3 <=? ?x] => destruct (3 <=? x) end);
    reflexivity.
Qed.

Lemma exhausts_loop (env : Env) (max_attempts retry_delay attempt : Z)
    (w w' : World) (e : exn) :
  exhausts env max_attempts retry_delay attempt w e w' ->
  fetch_loop (Z.to_nat (max_attempts - attempt)) attempt max_attempts retry_delay env w
    = abandon_result max_attempts e w'.
Proof.
  induction 1 as [attempt w w1 w2 w3 e Hlast Hset Hcall Hincr
                 | attempt w w1 w2 w3 w4 w' e0 e Hlt Hset Hcall Hincr Hpause Hrest IH].
  - replace (Z.to_nat (max_attempts - attempt)) with 1%nat by lia.
    rewrite fetch_loop_S. cbv zeta.
    apply is_set_false in Hset. destruct Hset as [-> ->].
    rewrite Hcall. rewrite dd_incr_counted in Hincr. injection Hincr as <-.
    destruct (Z.ltb_spec attempt (max_attempts - 1)); [lia|].
    apply abandon_counted.
  - replace (Z.to_nat (max_attempts - attempt))
      with (S (Z.to_nat (max_attempts - (attempt + 1)))) by lia.
    rewrite fetch_loop_S. cbv zeta.
    apply is_set_false in Hset. destruct Hset as [-> ->].
    rewrite Hcall. rewrite dd_incr_counted in Hincr. injection Hincr as <-.
    destruct (Z.ltb_spec attempt (max_attempts - 1)); [|lia].
    rewrite Hpause. exact IH.
Qed.

Ltac fields :=
  cbn [tick record counted with_breaker with_shutdown_event
       with_last_successful_metrics with_last_metrics_time
       with_healthcheck_failures circuit_breaker MAX_RETRY_ATTEMPTS RETRY_DELAY
       shutdown_event agent_draining last_successful_metrics last_metrics_time
       metrics_cache_ttl healthcheck_failures steps trace] in *.

Lemma failures_same (w w' : World) (k : string) :
  healthcheck_failures w' = healthcheck_failures w -> failures k w' = failures k w.
Proof. unfold failures. intros ->. reflexivity. Qed.

Lemma failures_counted (w : World) :
  failures "fetch" (counted w) = failures "fetch" w + 1.
Proof. unfold failures, counted. simpl. rewrite lookup_insert_eq. reflexivity. Qed.

Lemma exhausts_effect (env : Env) (max_attempts retry_delay attempt : Z)
    (w w' : World) (e : exn) :
  exhausts env max_attempts retry_delay attempt w e w' ->
  attempt <= max_attempts - 1 /\
  MAX_RETRY_ATTEMPTS w' = MAX_RETRY_ATTEMPTS w /\
  RETRY_DELAY w' = RETRY_DELAY w /\
  agent_draining w' = agent_draining w /\
  last_successful_metrics w' = last_successful_metrics w /\
  last_metrics_time w' = last_metrics_time w /\
  metrics_cache_ttl w' = metrics_cache_ttl w /\
  shutdown_event w' = false /\
  failures "fetch" w' = failures "fetch" w + (max_attempts - attempt) /\
  attempts (trace w') = (attempts (trace w) + Z.to_nat (max_attempts - attempt))%nat /\
  waits (trace w')
    = waits (trace w) ++ repeat retry_delay (Z.to_nat (max_attempts - attempt - 1)) /\
  (steps w < steps w')%nat.
Proof.
  induction 1 as [attempt w w1 w2 w3 e Hlast Hset Hcall Hincr
                 | attempt w w1 w2 w3 w4 w' e0 e Hlt Hset Hcall Hincr Hpause Hrest IH].
  - apply is_set_false in Hset. destruct Hset as [Hb ->].
    apply attempt_effect in Hcall.
    destruct Hcall as [(Hmx & Hdl & Hsh & Hdr & Hlsm & Hlmt & Httl & Hhf) [Hatt [Hw Hst]]].
    rewrite dd_incr_counted in Hincr. injection Hincr as <-.
    rewrite failures_counted, (failures_same _ _ _ Hhf). fields.
    rewrite Hatt, Hw.
    replace (Z.to_nat (max_attempts - attempt)) with 1%nat by lia.
    replace (Z.to_nat (max_attempts - attempt - 1)) with 0%nat by lia.
    repeat split; try assumption; try lia; try (unfold failures; fields; lia);
      count_events.
  - apply is_set_false in Hset. destruct Hset as [Hb ->].
    apply attempt_effect in Hcall.
    destruct Hcall as [(Hmx & Hdl & Hsh & Hdr & Hlsm & Hlmt & Httl & Hhf) [Hatt [Hw Hst]]].
    rewrite dd_incr_counted in Hincr. injection Hincr as <-.
    apply retry_pause_false in Hpause.
    destruct Hpause as [(Pmx & Pdl & Psh & Pdr & Plsm & Plmt & Pttl & Phf)
                          (Psh' & Pcb & Patt & Pw & Pst)].
    destruct IH as (Ia & Imx & Idl & Idr & Ilsm & Ilmt & Ittl & Ish & Ifail & Iatt & Iw & Ist).
    rewrite Ifail, Iatt, Iw, (failures_same _ _ _ Phf), failures_counted,
      (failures_same _ _ _ Hhf), Patt, Pw.
    fields. rewrite Hatt, Hw.
    replace (Z.to_nat (max_attempts - attempt))
      with (S (Z.to_nat (max_attempts - (attempt + 1)))) by lia.
    replace (Z.to_nat (max_attempts - attempt - 1))
      with (S (Z.to_nat (max_attempts - (attempt + 1) - 1))) by lia.
    repeat split; try congruence; try lia; try (unfold failures; fields; lia).
    + rewrite attempts_app. unfold attempts at 2. simpl. lia.
    + rewrite waits_app. unfold waits at 2. simpl. rewrite app_nil_r, <- app_assoc.
      reflexivity.
Qed.



Lemma cache_is_fresh_effect (env : Env) (w w0 : World) (r : result bool) :
  cache_is_fresh env w = (r, w0) ->
  same_globals w w0 /\
  circuit_breaker w0 = circuit_breaker w /\
  invocations (trace w0) = invocations (trace w) /\
  attempts (trace w0) = attempts (trace w) /\
  waits (trace w0) = waits (trace w) /\
  (steps w <= steps w0)%nat.
Proof.
  destruct w as [cb mx dl sh dr lsm lmt ttl hf n tr].
  unfold cache_is_fresh, same_globals. unfold_monad. fields.
  destruct (is_not_None lsm); [destruct lmt|]; intros [= <- <-]; fields;
    repeat split; try lia; count_events.
Qed.

Lemma abandon_result_effect (max_attempts : Z) (e : exn) (w : World) :
  let wf := snd (abandon_result max_attempts e w) in
  same_globals w wf /\
  circuit_breaker wf = circuit_breaker w /\
  steps wf = steps w /\
  invocations (trace wf) = invocations (trace w) /\
  attempts (trace wf) = attempts (trace w) /\
  waits (trace wf) = waits (trace w).
Proof.
  unfold abandon_result, same_globals.
  destruct (is_not_None (last_successful_metrics w) && (3 <=? failures "fetch" w));
    cbn [snd]; fields; repeat split; count_events.
Qed.

Lemma store_effect (env : Env) (v : json) (w : World) :
  let w' := snd (store v env w) in
  attempts (trace w') = attempts (trace w) /\ waits (trace w') = waits (trace w).
Proof.
  unfold store. unfold_monad. fields. cbn [snd]. fields. split; count_events.
Qed.

Lemma retry_pause_effect (env : Env) (w w4 : World) (r : result bool)
    (attempt : Z) (e : exn) (d : Z) :
  retry_pause attempt e d env w = (r, w4) ->
  attempts (trace w4) = attempts (trace w) /\
  waits (trace w4) = waits (trace w) ++ [d].
Proof.
  destruct w as [cb mx dl sh dr lsm lmt ttl hf n tr].
  unfold retry_pause. unfold_monad. cbn.
  destruct dr; cbn; intros [= <- <-]; cbn; split; count_events.
Qed.

Ltac norm_events :=
  rewrite ?attempts_app, ?waits_app, ?invocations_app in *;
  repeat match goal with
  | |- context [attempts [?e]] =>
      let v := eval cbv in (attempts [e]) in change (attempts [e]) with v
  | |- context [waits [?e]] =>
      let v := eval cbv in (waits [e]) in change (waits [e]) with v
  | H : context [attempts [?e]] |- _ =>
      let v := eval cbv in (attempts [e]) in change (attempts [e]) with v in H
  | H : context [waits [?e]] |- _ =>
      let v := eval cbv in (waits [e]) in change (waits [e]) with v in H
  end;
  rewrite ?app_nil_r, ?Nat.add_0_r in *.

(** In any environment the loop makes at most [fuel] attempts, and every wait
    it makes has the time-out [retry_delay]. *)
Lemma loop_bound (env : Env) (max_attempts retry_delay : Z) :
  forall (fuel : nat) (attempt : Z) (w : World),
    let w' := snd (fetch_loop fuel attempt max_attempts retry_delay env w) in
    (attempts (trace w) <= attempts (trace w'))%nat /\
    (attempts (trace w') <= attempts (trace w) + fuel)%nat /\
    exists k : nat, waits (trace w') = waits (trace w) ++ repeat retry_delay k.
Proof.
  induction fuel as [|fuel IH]; intros attempt w.
  - cbn. (split; [lia | split; [lia|]]). exists 0%nat. cbn. rewrite app_nil_r. reflexivity.
  - cbv zeta. rewrite fetch_loop_S. cbv zeta.
    destruct (shutdown_event w || signal env (steps w)).
    + cbn [snd]. fields. norm_events.
      (split; [lia | split; [lia|]]). exists 0%nat. cbn. rewrite app_nil_r. reflexivity.
    + destruct (fetch_metrics_with_circuit_breaker env _) as [[v|e] w2] eqn:Hcall;
        apply attempt_effect in Hcall; destruct Hcall as [_ [Hatt [Hw _]]];
        fields; norm_events.
      * destruct (store_effect env v w2) as [Sa Sw]. cbv zeta in Sa, Sw.
        rewrite Sa, Sw, Hatt, Hw. (split; [lia | split; [lia|]]).
        exists 0%nat. cbn. rewrite app_nil_r. reflexivity.
      * destruct (attempt <? max_attempts - 1).
        -- destruct (retry_pause attempt e retry_delay env (counted w2))
             as [[[|]|x] w4] eqn:Hpause;
             apply retry_pause_effect in Hpause; destruct Hpause as [Pa Pw]; fields.
           ++ cbn [snd]. rewrite Pa, Pw, Hatt, Hw. (split; [lia | split; [lia|]]).
              exists 1%nat. reflexivity.
           ++ destruct (IH (attempt + 1) w4) as (I1 & I2 & k & Ik).
              rewrite Ik, Pw, Hw. rewrite Pa, Hatt in I1, I2.
              (split; [lia | split; [lia|]]). exists (S k). rewrite <- app_assoc. reflexivity.
           ++ cbn [snd]. rewrite Pa, Pw, Hatt, Hw. (split; [lia | split; [lia|]]).
              exists 1%nat. reflexivity.
        -- rewrite abandon_counted.
           destruct (abandon_result_effect max_attempts e (counted w2))
             as (_ & _ & _ & _ & Ga & Gw). cbv zeta in Ga, Gw. fields.
           rewrite Ga, Gw, Hatt, Hw. (split; [lia | split; [lia|]]).
           exists 0%nat. cbn. rewrite app_nil_r. reflexivity.
Qed.

(** An iteration that does not find the latch set makes an attempt. *)
Lemma loop_first_attempt (env : Env) (max_attempts retry_delay : Z)
    (fuel : nat) (attempt : Z) (w : World) :
  shutdown_event w || signal env (steps w) = false ->
  (S (attempts (trace w))
   <= attempts (trace (snd (fetch_loop (S fuel) attempt max_attempts retry_delay env w))))%nat.
Proof.
  intros Hb. rewrite fetch_loop_S. cbv zeta. rewrite Hb.
  destruct (fetch_metrics_with_circuit_breaker env _) as [[v|e] w2] eqn:Hcall;
    apply attempt_effect in Hcall; destruct Hcall as [_ [Hatt _]];
    fields; norm_events.
  - destruct (store_effect env v w2) as [Sa _]. cbv zeta in Sa. rewrite Sa. lia.
  - destruct (attempt <? max_attempts - 1).
    + destruct (retry_pause attempt e retry_delay env (counted w2))
        as [[[|]|x] w4] eqn:Hpause;
        apply retry_pause_effect in Hpause; destruct Hpause as [Pa _]; fields.
      * cbn [snd]. lia.
      * destruct (loop_bound env max_attempts retry_delay fuel (attempt + 1) w4)
          as [I1 _]. lia.
      * cbn [snd]. lia.
    + rewrite abandon_counted.
      destruct (abandon_result_effect max_attempts e (counted w2))
        as (_ & _ & _ & _ & Ga & _). cbv zeta in Ga. fields. lia.
Qed.

(** Building a derivation of [exhausts] for a given environment and world by
    running the program. *)
Ltac compute_goal := vm_compute; reflexivity.

Ltac build_exhausts :=
  first
    [ eapply exhausts_last;
        [compute_goal | compute_goal | compute_goal | compute_goal]
    | eapply exhausts_retry;
        [ compute_goal | compute_goal | compute_goal | compute_goal
        | compute_goal | build_exhausts ] ].

(** The run of [fetch_metrics] when the budget is exhausted. *)
Lemma exhausted_run (env : Env) (w w0 w' : World) (e : exn) :
  cache_is_fresh env w = (Ret false, w0) ->
  exhausts env (max_attempts_of w) (retry_delay_of w) 0 w0 e w' ->
  fetch_metrics env w = abandon_result (max_attempts_of w) e w' /\
  last_successful_metrics w' = last_successful_metrics w /\
  failures "fetch" w' = failures "fetch" w + max_attempts_of w.
Proof.
  intros Hfresh Hexh.
  destruct (cache_is_fresh_effect _ _ _ _ Hfresh)
    as [(_ & _ & _ & _ & Hlsm & _ & _ & Hhf) _].
  destruct (exhausts_effect _ _ _ _ _ _ _ Hexh)
    as (_ & _ & _ & _ & Elsm & _ & _ & _ & Efail & _).
  split; [|split].
  - rewrite fetch_metrics_unfold, Hfresh.
    replace (Z.to_nat (max_attempts_of w)) with (Z.to_nat (max_attempts_of w - 0))
      by (f_equal; lia).
    apply (exhausts_loop _ _ _ _ _ _ _ Hexh).
  - congruence.
  - rewrite Efail, (failures_same _ _ _ Hhf). lia.
Qed.

(** C4.  A call that finds no fresh cache entry and exhausts its budget, every
    attempt failing: when a cached document exists and the "fetch" counter,
    which by then has grown by the number of attempts, is at least 3, the
    cached document is returned; otherwise the error of the last attempt is
    raised. *)
Theorem stale_fallback_after_exhaustion (env : Env) (w w0 w' : World) (e : exn) :
  cache_is_fresh env w = (Ret false, w0) ->
  exhausts env (max_attempts_of w) (retry_delay_of w) 0 w0 e w' ->
  last_successful_metrics w' = last_successful_metrics w /\
  failures "fetch" w' = failures "fetch" w + max_attempts_of w /\
  fst (fetch_metrics env w) =
    if is_not_None (last_successful_metrics w') && (3 <=? failures "fetch" w')
    then Ret (last_successful_metrics w')
    else Raise e.
Proof.
  intros Hfresh Hexh.
  destruct (exhausted_run env w w0 w' e Hfresh Hexh) as (Hrun & Hlsm & Hfail).
  split; [exact Hlsm|]. split; [exact Hfail|].
  rewrite Hrun. unfold abandon_result.
  destruct (is_not_None (last_successful_metrics w') && (3 <=? failures "fetch" w'));
    reflexivity.
Qed.

(** Draining, upstream down, a document cached long ago: three attempts fail
    and the cached document is returned. *)
Lemma stale_fallback_after_exhaustion_witness :
  fst (fetch_metrics env_down world_stale_draining) = Ret doc_small.
Proof.
  edestruct (stale_fallback_after_exhaustion env_down world_stale_draining)
    as (_ & _ & Hres).
  - compute_goal.
  - build_exhausts.
  - rewrite Hres. compute_goal.
Defined.

Lemma budget_same (w w' : World) :
  agent_draining w' = agent_draining w ->
  MAX_RETRY_ATTEMPTS w' = MAX_RETRY_ATTEMPTS w ->
  RETRY_DELAY w' = RETRY_DELAY w ->
  max_attempts_of w' = max_attempts_of w /\ retry_delay_of w' = retry_delay_of w.
Proof. unfold max_attempts_of, retry_delay_of. intros -> -> ->. split; reflexivity. Qed.

Lemma not_fresh_later (env : Env) (w w0 wf : World) :
  cache_is_fresh env w = (Ret false, w0) ->
  last_successful_metrics w <> JNull ->
  last_successful_metrics wf = last_successful_metrics w ->
  last_metrics_time wf = last_metrics_time w ->
  metrics_cache_ttl wf = metrics_cache_ttl w ->
  clock env (steps w) <= clock env (steps wf) ->
  fst (cache_is_fresh env wf) = Ret false.
Proof.
  intros Hfresh Hdoc Hl Ht Httl Hclk.
  destruct w as [cb mx dl sh dr lsm lmt ttl hf n tr],
           wf as [cb' mx' dl' sh' dr' lsm' lmt' ttl' hf' n' tr'].
  cbn in Hl, Ht, Httl, Hclk, Hdoc. subst lsm' lmt' ttl'.
  unfold cache_is_fresh in *. unfold_monad. cbn in *.
  destruct lsm; try congruence; cbn in *;
    (destruct lmt as [t|]; [|reflexivity]);
    cbn in *; injection Hfresh as Hlt _;
    apply Z.ltb_ge in Hlt;
    (destruct (Z.ltb_spec (clock env n' - t) ttl); [lia|]);
    reflexivity.
Qed.

(** C9.  When the stale document is served after the budget is exhausted, the
    globals are those left by the last counted failure: serving changes none
    of them.  The cached document and its time stamp are the ones from before
    the call and the "fetch" counter is not reset (it has grown by the number
    of attempts).  So, with a clock that does not run backwards and the latch
    still unset, the next call again finds the entry expired and makes an
    attempt. *)
Theorem stale_serving_keeps_state (env : Env) (w w0 w' : World) (e : exn) :
  cache_is_fresh env w = (Ret false, w0) ->
  exhausts env (max_attempts_of w) (retry_delay_of w) 0 w0 e w' ->
  last_successful_metrics w <> JNull ->
  3 <= failures "fetch" w' ->
  exists wf,
    fetch_metrics env w = (Ret (last_successful_metrics w), wf) /\
    (same_globals w' wf /\
     circuit_breaker wf = circuit_breaker w' /\
     steps wf = steps w' /\
     invocations (trace wf) = invocations (trace w') /\
     attempts (trace wf) = attempts (trace w')) /\
    (last_successful_metrics wf = last_successful_metrics w /\
     last_metrics_time wf = last_metrics_time w /\
     failures "fetch" wf = failures "fetch" w + max_attempts_of w /\
     3 <= failures "fetch" wf) /\
    ((forall i j, (i <= j)%nat -> clock env i <= clock env j) ->
     (forall i, (steps wf <= i)%nat -> signal env i = false) ->
     fst (cache_is_fresh env wf) = Ret false /\
     (attempts (trace wf) < attempts (trace (snd (fetch_metrics env wf))))%nat).
Proof.
  intros Hfresh Hexh Hdoc Hmany.
  destruct (exhausted_run env w w0 w' e Hfresh Hexh) as (Hrun & Hlsm & Hfail).
  destruct (cache_is_fresh_effect _ _ _ _ Hfresh)
    as [(Cmx & Cdl & Csh & Cdr & Clsm & Clmt & Cttl & Chf) (_ & _ & _ & _ & Cst)].
  destruct (exhausts_effect _ _ _ _ _ _ _ Hexh)
    as (Epos & Emx & Edl & Edr & Elsm & Elmt & Ettl & Esh & Efail & _ & _ & Est).
  destruct (abandon_result_effect (max_attempts_of w) e w')
    as ((Gmx & Gdl & Gsh & Gdr & Glsm & Glmt & Gttl & Ghf) & Gcb & Gst & Ginv & Gatt & Gw).
  cbv zeta in *.
  exists (snd (abandon_result (max_attempts_of w) e w')).
  assert (Hret : fst (abandon_result (max_attempts_of w) e w')
                 = Ret (last_successful_metrics w)).
  { unfold abandon_result. rewrite Hlsm.
    destruct (last_successful_metrics w); try congruence; cbn [is_not_None andb];
      destruct (Z.leb_spec 3 (failures "fetch" w')); try lia; reflexivity. }
  split.
  { rewrite Hrun. rewrite <- Hret. destruct (abandon_result _ _ _). reflexivity. }
  split.
  { unfold same_globals. repeat split; assumption. }
  assert (Hfailf : failures "fetch" (snd (abandon_result (max_attempts_of w) e w'))
                   = failures "fetch" w').
  { apply failures_same. exact Ghf. }
  split.
  { repeat split; try congruence; rewrite Hfailf; lia. }
  intros Hmono Hquiet.
  set (wf := snd (abandon_result (max_attempts_of w) e w')) in *.
  assert (Hnf : fst (cache_is_fresh env wf) = Ret false).
  { apply (not_fresh_later env w w0 wf Hfresh Hdoc); try congruence.
    apply Hmono. lia. }
  split; [exact Hnf|].
  rewrite fetch_metrics_unfold.
  destruct (cache_is_fresh env wf) as [r wf0] eqn:Hf2. cbn [fst] in Hnf. subst r.
  destruct (cache_is_fresh_effect _ _ _ _ Hf2)
    as [(_ & _ & Fsh & _) (_ & _ & Fatt & _ & Fst)].
  destruct (budget_same w wf) as [Hbm _]; try congruence.
  rewrite Hbm.
  destruct (Z.to_nat (max_attempts_of w)) as [|fuel] eqn:Hfuel; [lia|].
  rewrite <- Fatt.
  apply loop_first_attempt.
  rewrite Fsh, Gsh, Esh. apply Hquiet. lia.
Qed.

(** The same run: the time stamp is still -100 and the counter is 3. *)
Lemma stale_serving_keeps_state_witness :
  exists wf,
    fetch_metrics env_down world_stale_draining = (Ret doc_small, wf) /\
    last_metrics_time wf = Some (-100) /\
    failures "fetch" wf = 3.
Proof.
  edestruct (stale_serving_keeps_state env_down world_stale_draining)
    as (wf & Hrun & _ & (_ & Hstamp & Hfail & _) & _).
  - compute_goal.
  - build_exhausts.
  - discriminate.
  - vm_compute. discriminate.
  - exists wf. split; [exact Hrun|]. split; [exact Hstamp | exact Hfail].
Defined.



(** ** The invariant of the breaker holds throughout *)

Lemma store_breaker (env : Env) (v : json) (w : World) :
  circuit_breaker (snd (store v env w)) = circuit_breaker w.
Proof. unfold store. unfold_monad. reflexivity. Qed.

Lemma retry_pause_breaker (env : Env) (w : World) (attempt : Z) (e : exn) (d : Z) :
  circuit_breaker (snd (retry_pause attempt e d env w)) = circuit_breaker w.
Proof.
  unfold retry_pause. unfold_monad. cbv beta iota.
  destruct (negb (agent_draining w)); reflexivity.
Qed.

(** The retry loop keeps the invariant of the breaker. *)
Lemma fetch_loop_wf (env : Env) (max_attempts retry_delay : Z) :
  forall (fuel : nat) (attempt : Z) (w : World),
    cb_wf (circuit_breaker w) ->
    cb_wf (circuit_breaker
             (snd (fetch_loop fuel attempt max_attempts retry_delay env w))).
Proof.
  induction fuel as [|fuel IH]; intros attempt w Hwf; [exact Hwf|].
  rewrite fetch_loop_S. cbv zeta.
  destruct (shutdown_event w || signal env (steps w)); [exact Hwf|].
  pose proof (attempt_wf env (tick (EvIsSet false) (with_shutdown_event false w)) Hwf)
    as Hwf2.
  destruct (fetch_metrics_with_circuit_breaker env _) as [[v|e] w2]; cbn [snd] in Hwf2.
  - rewrite store_breaker. exact Hwf2.
  - destruct (attempt <? max_attempts - 1).
    + pose proof (retry_pause_breaker env (counted w2) attempt e retry_delay) as Hcb.
      destruct (retry_pause attempt e retry_delay env (counted w2)) as [[[|]|x] w4];
        cbn [snd] in *; try (rewrite Hcb; exact Hwf2).
      apply IH. rewrite Hcb. exact Hwf2.
    + rewrite abandon_counted.
      destruct (abandon_result_effect max_attempts e (counted w2)) as (_ & Hcb & _).
      cbv zeta in Hcb. rewrite Hcb. exact Hwf2.
Qed.

(** [fetch_metrics], [/metrics] and [/health] keep the invariant too: with
    [cb_wf_init] it holds of the breaker throughout the life of the module. *)
Lemma fetch_metrics_wf (env : Env) (w : World) :
  cb_wf (circuit_breaker w) ->
  cb_wf (circuit_breaker (snd (fetch_metrics env w))).
Proof.
  intros Hwf. rewrite fetch_metrics_unfold.
  destruct (cache_is_fresh env w) as [r w0] eqn:Hf.
  destruct (cache_is_fresh_effect _ _ _ _ Hf) as (_ & Hcb & _).
  destruct r as [[|]|e]; cbn [snd].
  - cbn. rewrite Hcb. exact Hwf.
  - apply fetch_loop_wf. rewrite Hcb. exact Hwf.
  - rewrite Hcb. exact Hwf.
Qed.

Lemma metrics_wf (fmt : json -> string) (env : Env) (w : World) :
  cb_wf (circuit_breaker w) ->
  cb_wf (circuit_breaker (snd (metrics fmt env w))).
Proof.
  intros Hwf. pose proof (fetch_metrics_wf env w Hwf) as Hwf1.
  rewrite metrics_run.
  destruct (fetch_metrics env w) as [[doc|e] w1]; cbn [snd] in Hwf1.
  - destruct (convert_to_prometheus fmt doc) as [text|e];
      [destruct (has_surrogate text)|]; exact Hwf1.
  - exact Hwf1.
Qed.

Lemma health_wf (env : Env) (w : World) :
  cb_wf (circuit_breaker w) ->
  cb_wf (circuit_breaker (snd (health env w))).
Proof.
  intros Hwf. unfold health. unfold_monad.
  destruct (shutdown_event w || signal env (steps w)); [exact Hwf|]. cbn.
  destruct (healthcheck_failures w !! "fetch") as [v|]; cbn;
    [destruct (v >? 10) | ]; exact Hwf.
Qed.

(** ** The breaker over several calls *)

Lemma failed_requests_app (l1 l2 : list Event) :
  failed_requests (l1 ++ l2) = (failed_requests l1 + failed_requests l2)%nat.
Proof. unfold failed_requests. rewrite List.filter_app, length_app. reflexivity. Qed.

Ltac count_requests :=
  rewrite <- ?app_assoc, ?invocations_app, ?failed_requests_app;
  unfold invocations, failed_requests; simpl; try lia.

(** One call on a closed breaker: the operation runs once; a success leaves
    the breaker as it is, a failure adds one to the count, stamps the time
    and opens the breaker when the count has reached the threshold. *)
Lemma call_closed (env : Env) (w : World) :
  state (circuit_breaker w) = CLOSED ->
  let b := circuit_breaker w in
  let w' := snd (CircuitBreaker_call _fetch_metrics_internal env w) in
  fst (CircuitBreaker_call _fetch_metrics_internal env w) = upstream env (steps w) /\
  invocations (trace w') = S (invocations (trace w)) /\
  match upstream env (steps w) with
  | Ret _ =>
      circuit_breaker w' = b /\
      failed_requests (trace w') = failed_requests (trace w)
  | Raise _ =>
      circuit_breaker w'
        = mkCB (failure_threshold b) (recovery_timeout b) (failure_count b + 1)
               (Some (clock env (S (steps w))))
               (if failure_threshold b <=? failure_count b + 1 then OPEN else CLOSED) /\
      failed_requests (trace w') = S (failed_requests (trace w))
  end.
Proof.
  destruct w as [[thr rt cnt lft st] mx dl sh dr lsm lmt ttl hf n tr].
  cbn. intros ->. unfold_monad. cbn.
  destruct (upstream env n) as [v|e]; cbn.
  - repeat split; count_requests.
  - rewrite Z.geb_leb. destruct (thr <=? cnt + 1); cbn; repeat split; count_requests.
Qed.

Lemma call_failed_requests_mono (env : Env) (w : World) :
  (failed_requests (trace w)
   <= failed_requests (trace (snd (CircuitBreaker_call _fetch_metrics_internal env w))))%nat.
Proof.
  destruct w as [[thr rt cnt lft st] mx dl sh dr lsm lmt ttl hf n tr].
  unfold_monad. cbn.
  destruct st; cbn;
    [ | destruct lft as [t|]; cbn; [destruct (clock env n - t >? rt); cbn|] | ];
    try (destruct (upstream env _); cbn; try destruct (cnt + 1 >=? thr); cbn);
    count_requests.
Qed.

Lemma calls_S (k : nat) (env : Env) (w : World) :
  calls (S k) env w
    = snd (CircuitBreaker_call _fetch_metrics_internal env (calls k env w)).
Proof. reflexivity. Qed.

(** While the failures counted stay below the threshold the breaker stays
    closed, and its count is the number of failed calls, successes or not in
    between. *)
Lemma calls_while_closed (env : Env) :
  forall (k : nat) (w : World),
    state (circuit_breaker w) = CLOSED ->
    let w' := calls k env w in
    let f := Z.of_nat (failed_requests (trace w')) - Z.of_nat (failed_requests (trace w)) in
    failure_count (circuit_breaker w) + f < failure_threshold (circuit_breaker w) ->
    state (circuit_breaker w') = CLOSED /\
    failure_count (circuit_breaker w') = failure_count (circuit_breaker w) + f /\
    failure_threshold (circuit_breaker w') = failure_threshold (circuit_breaker w) /\
    invocations (trace w') = (invocations (trace w) + k)%nat /\
    0 <= f.
Proof.
  induction k as [|k IH]; intros w Hst; cbv zeta.
  - change (calls 0 env w) with w. intros _. repeat split; try assumption; lia.
  - rewrite calls_S. set (wk := calls k env w) in *. intros Hlt.
    pose proof (call_failed_requests_mono env wk) as Hmono.
    specialize (IH w Hst). cbv zeta in IH. fold wk in IH.
    destruct IH as (Kst & Kcnt & Kthr & Kinv & Kf); [lia|].
    destruct (call_closed env wk Kst) as (_ & Hinv & Hcase). cbv zeta in *.
    destruct (upstream env (steps wk)) as [v|e].
    + destruct Hcase as [Hcb Hf]. rewrite Hcb, Hinv, Hf.
      repeat split; try assumption; try lia.
    + destruct Hcase as [Hcb Hf]. rewrite Hcb, Hinv, Hf in *. cbn.
      destruct (Z.leb_spec (failure_threshold (circuit_breaker wk))
                           (failure_count (circuit_breaker wk) + 1)); [lia|].
      repeat split; try assumption; try lia.
Qed.

Lemma calls_all_fail (env : Env) :
  (forall i, exists e, upstream env i = Raise e) ->
  forall (k : nat) (w : World),
    state (circuit_breaker w) = CLOSED ->
    failure_count (circuit_breaker w) + Z.of_nat k < failure_threshold (circuit_breaker w) ->
    let w' := calls k env w in
    state (circuit_breaker w') = CLOSED /\
    failure_count (circuit_breaker w') = failure_count (circuit_breaker w) + Z.of_nat k /\
    failure_threshold (circuit_breaker w') = failure_threshold (circuit_breaker w) /\
    invocations (trace w') = (invocations (trace w) + k)%nat.
Proof.
  intros Hdown. induction k as [|k IH]; intros w Hst Hlt; cbv zeta.
  - change (calls 0 env w) with w. repeat split; try assumption; lia.
  - rewrite calls_S. set (wk := calls k env w) in *.
    destruct (IH w Hst) as (Kst & Kcnt & Kthr & Kinv); [lia|]. fold wk in Kst, Kcnt, Kthr, Kinv.
    destruct (call_closed env wk Kst) as (_ & Hinv & Hcase). cbv zeta in *.
    destruct (Hdown (steps wk)) as [e He]. rewrite He in Hcase.
    destruct Hcase as [Hcb _]. rewrite Hcb, Hinv. cbn.
    destruct (Z.leb_spec (failure_threshold (circuit_breaker wk))
                         (failure_count (circuit_breaker wk) + 1)); [lia|].
    repeat split; lia.
Qed.

(** X1.  A closed breaker whose operation keeps failing stays closed until
    the count reaches the threshold and opens at the call that reaches it:
    with count c below the threshold, the first (threshold - c) - 1 calls
    leave it closed and the next one opens it, the count then being the
    threshold and the failure time stamped; every one of these calls invokes
    the operation. *)
Theorem breaker_opens_at_threshold (env : Env) (w : World) :
  state (circuit_breaker w) = CLOSED ->
  (forall i, exists e, upstream env i = Raise e) ->
  failure_count (circuit_breaker w) < failure_threshold (circuit_breaker w) ->
  let n := Z.to_nat (failure_threshold (circuit_breaker w)
                     - failure_count (circuit_breaker w)) in
  (forall k, (k < n)%nat -> state (circuit_breaker (calls k env w)) = CLOSED) /\
  state (circuit_breaker (calls n env w)) = OPEN /\
  failure_count (circuit_breaker (calls n env w)) = failure_threshold (circuit_breaker w) /\
  last_failure_time (circuit_breaker (calls n env w)) <> None /\
  invocations (trace (calls n env w)) = (invocations (trace w) + n)%nat.
Proof.
  intros Hst Hdown Hlt n. split.
  - intros k Hk. destruct (calls_all_fail env Hdown k w Hst) as (Kst & _); [lia|].
    exact Kst.
  - destruct n as [|m] eqn:Hn; [lia|].
    rewrite calls_S. set (wm := calls m env w).
    destruct (calls_all_fail env Hdown m w Hst) as (Kst & Kcnt & Kthr & Kinv); [lia|].
    fold wm in Kst, Kcnt, Kthr, Kinv.
    destruct (call_closed env wm Kst) as (_ & Hinv & Hcase). cbv zeta in *.
    destruct (Hdown (steps wm)) as [e He]. rewrite He in Hcase.
    destruct Hcase as [Hcb _]. rewrite Hcb, Hinv. cbn.
    destruct (Z.leb_spec (failure_threshold (circuit_breaker wm))
                         (failure_count (circuit_breaker wm) + 1)); [|lia].
    repeat split; try lia. discriminate.
Qed.

(** A fresh breaker (threshold 5) against an upstream that is down: closed
    after four calls, open after the fifth. *)
Lemma breaker_opens_at_threshold_witness :
  state (circuit_breaker (calls 4 env_down init_world)) = CLOSED /\
  state (circuit_breaker (calls 5 env_down init_world)) = OPEN.
Proof.
  destruct (breaker_opens_at_threshold env_down init_world) as (Hbefore & Hopen & _).
  - reflexivity.
  - intros i. eexists. reflexivity.
  - simpl. lia.
  - split; [apply (Hbefore 4%nat); simpl; lia | exact Hopen].
Defined.

(** X2.  The count of a closed breaker is not a count of consecutive
    failures: over any run of calls, as long as the failures counted stay
    below the threshold, the breaker stays closed and its count is the old
    count plus the number of calls that failed, however many successful calls
    lie in between. *)
Theorem closed_breaker_accumulates_failures (env : Env) (k : nat) (w : World) :
  state (circuit_breaker w) = CLOSED ->
  let w' := calls k env w in
  let f := Z.of_nat (failed_requests (trace w')) - Z.of_nat (failed_requests (trace w)) in
  failure_count (circuit_breaker w) + f < failure_threshold (circuit_breaker w) ->
  state (circuit_breaker w') = CLOSED /\
  failure_count (circuit_breaker w') = failure_count (circuit_breaker w) + f /\
  invocations (trace w') = (invocations (trace w) + k)%nat.
Proof.
  intros Hst w' f Hlt.
  destruct (calls_while_closed env k w Hst Hlt) as (Kst & Kcnt & _ & Kinv & _).
  repeat split; assumption.
Qed.

(** A failure, a success and another failure: the count is 2. *)
Lemma closed_breaker_accumulates_failures_witness :
  state (circuit_breaker (calls 3 env_hiccup init_world)) = CLOSED /\
  failure_count (circuit_breaker (calls 3 env_hiccup init_world)) = 2.
Proof.
  destruct (closed_breaker_accumulates_failures env_hiccup 3 init_world)
    as (Hst & Hcnt & _).
  - reflexivity.
  - vm_compute. reflexivity.
  - split; [exact Hst|]. rewrite Hcnt. vm_compute. reflexivity.
Defined.

(** X3.  A call never changes the threshold or the recovery time-out of the
    breaker, never clears the time of the last failure, and moves the count
    only to itself, one more, or 0; it is 0 or unchanged when the call
    returns and one more or unchanged when it raises. *)
Theorem call_keeps_configuration (env : Env) (w : World) :
  let b := circuit_breaker w in
  let r := fst (CircuitBreaker_call _fetch_metrics_internal env w) in
  let b' := circuit_breaker (snd (CircuitBreaker_call _fetch_metrics_internal env w)) in
  failure_threshold b' = failure_threshold b /\
  recovery_timeout b' = recovery_timeout b /\
  (last_failure_time b <> None -> last_failure_time b' <> None) /\
  match r with
  | Ret _ => failure_count b' = failure_count b \/ failure_count b' = 0
  | Raise _ => failure_count b' = failure_count b \/ failure_count b' = failure_count b + 1
  end.
Proof.
  destruct w as [[thr rt cnt lft st] mx dl sh dr lsm lmt ttl hf n tr].
  unfold_monad. cbn.
  destruct st; cbn;
    [ | destruct lft as [t|]; cbn; [destruct (clock env n - t >? rt); cbn|] | ];
    try (destruct (upstream env _); cbn; try destruct (cnt + 1 >=? thr); cbn);
    repeat split; auto; try discriminate.
Qed.

(** ** What a call of [fetch_metrics] leaves behind *)

Lemma store_run (env : Env) (v : json) (w : World) :
  store v env w = (Ret v, stored v env w).
Proof. reflexivity. Qed.

Lemma retry_pause_any (env : Env) (w : World) (attempt : Z) (e : exn) (d : Z) :
  exists w4,
    retry_pause attempt e d env w
      = (Ret (shutdown_event w || signal env (steps w)), w4) /\
    shutdown_event w4 = (shutdown_event w || signal env (steps w)) /\
    MAX_RETRY_ATTEMPTS w4 = MAX_RETRY_ATTEMPTS w /\
    RETRY_DELAY w4 = RETRY_DELAY w /\
    agent_draining w4 = agent_draining w /\
    last_successful_metrics w4 = last_successful_metrics w /\
    last_metrics_time w4 = last_metrics_time w /\
    metrics_cache_ttl w4 = metrics_cache_ttl w /\
    healthcheck_failures w4 = healthcheck_failures w /\
    circuit_breaker w4 = circuit_breaker w /\
    attempts (trace w4) = attempts (trace w) /\
    invocations (trace w4) = invocations (trace w).
Proof.
  destruct w as [cb mx dl sh dr lsm lmt ttl hf n tr].
  unfold retry_pause. unfold_monad. cbn.
  destruct dr; cbn; eexists; (split; [reflexivity|]); cbn; repeat split; count_events.
Qed.

Lemma attempt_invocations (env : Env) (w : World) :
  let w' := snd (fetch_metrics_with_circuit_breaker env w) in
  exists i : nat,
    invocations (trace w') = (invocations (trace w) + i)%nat /\ (i <= 1)%nat.
Proof.
  destruct w as [[thr rt cnt lft st] mx dl sh dr lsm lmt ttl hf n tr].
  unfold_monad. cbn.
  destruct st; cbn;
    [ | destruct lft as [t|]; cbn; [destruct (clock env n - t >? rt); cbn|] | ];
    try (destruct (upstream env _); cbn; try destruct (cnt + 1 >=? thr); cbn);
    first [ exists 1%nat; split; [solve [count_events] | lia]
          | exists 0%nat; split; [solve [count_events] | lia] ].
Qed.

Ltac norm_inv :=
  rewrite ?invocations_app in *;
  repeat match goal with
  | |- context [invocations [?e]] =>
      let v := eval cbv in (invocations [e]) in change (invocations [e]) with v
  | H : context [invocations [?e]] |- _ =>
      let v := eval cbv in (invocations [e]) in change (invocations [e]) with v in H
  end;
  rewrite ?Nat.add_0_r in *.

Ltac post_split :=
  unfold loop_post;
  split; [repeat split | split; [ | split; [ | split; [ | split ]]]].

Lemma loop_post_holds (env : Env) (max_attempts retry_delay : Z) :
  forall (fuel : nat) (attempt : Z) (w : World),
    fuel = Z.to_nat (max_attempts - attempt) ->
    loop_post fuel w
      (fst (fetch_loop fuel attempt max_attempts retry_delay env w))
      (snd (fetch_loop fuel attempt max_attempts retry_delay env w)).
Proof.
  induction fuel as [|fuel IH]; intros attempt w Hfuel.
  - cbn. post_split; try tauto.
    exists 0%nat, 0%nat. repeat split; try lia; try (right; lia).
  - rewrite fetch_loop_S. cbv zeta.
    destruct (shutdown_event w || signal env (steps w)) eqn:Hlatch.
    { cbn [fst snd]. post_split; unfold cache_paired, failures; fields;
        try tauto; try discriminate.
      exists 0%nat, 0%nat. norm_events. norm_inv.
      repeat split; try lia; try (right; lia). }
    apply orb_false_elim in Hlatch. destruct Hlatch as [Hsh Hsig].
    set (w1 := tick (EvIsSet false) (with_shutdown_event false w)).
    assert (Ha1 : attempts (trace w1) = attempts (trace w)).
    { unfold w1. fields. norm_events. lia. }
    assert (Hi1 : invocations (trace w1) = invocations (trace w)).
    { unfold w1. fields. norm_inv. lia. }
    destruct (attempt_invocations env w1) as [i [Hinv Hi]]. cbv zeta in Hinv.
    destruct (fetch_metrics_with_circuit_breaker env w1) as [[v|e] w2] eqn:Hcall;
      destruct (attempt_effect _ _ _ _ Hcall)
        as [(Hmx & Hdl & Hsh2 & Hdr & Hlsm & Hlmt & Httl & Hhf) [Hatt _]];
      cbn [snd] in Hinv; unfold w1 in Hmx, Hdl, Hsh2, Hdr, Hlsm, Hlmt, Httl, Hhf;
      cbn [tick with_shutdown_event MAX_RETRY_ATTEMPTS RETRY_DELAY shutdown_event
           agent_draining last_successful_metrics last_metrics_time metrics_cache_ttl
           healthcheck_failures] in Hmx, Hdl, Hsh2, Hdr, Hlsm, Hlmt, Httl, Hhf.
    + (* the attempt succeeds *)
      rewrite store_run. cbn [fst snd].
      post_split; unfold cache_paired, failures, stored; fields;
        rewrite ?lookup_insert_eq; cbn [default]; try congruence; try lia;
        try discriminate.
      exists 1%nat, i. norm_events. norm_inv.
      repeat split; try lia. left. split; [eexists; reflexivity | reflexivity].
    + (* the attempt fails *)
      assert (Hf3 : failures "fetch" (counted w2) = failures "fetch" w + 1).
      { rewrite failures_counted. unfold failures. rewrite Hhf. reflexivity. }
      destruct (Z.ltb_spec attempt (max_attempts - 1)) as [Hmore | Hlast].
      * destruct (retry_pause_any env (counted w2) attempt e retry_delay)
          as (w4 & Hpause & Psh & Pmx & Pdl & Pdr & Plsm & Plmt & Pttl & Phf & Pcb & Patt & Pinv).
        rewrite Hpause.
        cbn [counted with_healthcheck_failures MAX_RETRY_ATTEMPTS RETRY_DELAY
             shutdown_event agent_draining last_successful_metrics last_metrics_time
             metrics_cache_ttl healthcheck_failures steps trace]
          in Psh, Pmx, Pdl, Pdr, Plsm, Plmt, Pttl, Patt, Pinv |- *.
        destruct (shutdown_event w2 || signal env (steps w2)) eqn:Hlatch2.
        -- cbn [fst snd]. post_split; unfold cache_paired;
             rewrite ?(failures_same _ _ _ Phf), ?Hf3;
             try congruence; try lia; try discriminate.
           ++ rewrite Plsm, Plmt, Hlsm, Hlmt. tauto.
           ++ exists 1%nat, i. rewrite Patt, Pinv.
              repeat split; try lia; try (right; lia).
        -- specialize (IH (attempt + 1) w4 ltac:(lia)).
           destruct (fetch_loop fuel (attempt + 1) max_attempts retry_delay env w4)
             as [r w'] eqn:Hrest. cbn [fst snd] in *.
           destruct IH as ((Imx & Idl & Idr & Ittl) & Ish & Ipair
                           & (a & j & Ia & Ij & Ile & Ifail) & Iret & Ipos).
           post_split; try congruence.
           ++ intros Hpair. apply Ipair. unfold cache_paired in *.
              rewrite Plsm, Plmt, Hlsm, Hlmt. exact Hpair.
           ++ exists (S a), (i + j)%nat. rewrite Ia, Ij, Patt, Pinv.
              repeat split; try lia.
              rewrite (failures_same _ _ _ Phf), Hf3 in Ifail.
              destruct Ifail as [Hz | Hs]; [left; exact Hz | right; lia].
           ++ intros v Hv _. apply Iret; [exact Hv | lia].
           ++ intros Hpos. apply Ipos.
              rewrite (failures_same _ _ _ Phf), Hf3. lia.
      * rewrite abandon_counted.
        destruct (abandon_result_effect max_attempts e (counted w2))
          as ((Gmx & Gdl & Gsh & Gdr & Glsm & Glmt & Gttl & Ghf) & Gcb & Gst & Ginv & Gatt & Gw).
        cbv zeta in Gmx, Gdl, Gsh, Gdr, Glsm, Glmt, Gttl, Ghf, Ginv, Gatt.
        cbn [counted with_healthcheck_failures MAX_RETRY_ATTEMPTS RETRY_DELAY
             shutdown_event agent_draining last_successful_metrics last_metrics_time
             metrics_cache_ttl steps trace]
          in Gmx, Gdl, Gsh, Gdr, Glsm, Glmt, Gttl, Ginv, Gatt.
        post_split; unfold cache_paired;
          rewrite ?(failures_same _ _ _ Ghf), ?Hf3;
          try congruence; try lia.
        -- rewrite Glsm, Glmt, Hlsm, Hlmt. tauto.
        -- exists 1%nat, i. rewrite Gatt, Ginv. repeat split; try lia; try (right; lia).
        -- intros v Hv _. rewrite Glsm, Hlsm.
           unfold abandon_result in Hv.
           cbn [counted with_healthcheck_failures last_successful_metrics] in Hv.
           destruct (is_not_None (last_successful_metrics w2)
                     && (3 <=? failures "fetch" (counted w2))); cbn [fst] in Hv;
             [injection Hv as <-; congruence | discriminate].
Qed.

Lemma cache_is_fresh_cases (env : Env) (w : World) :
  (exists t,
     last_successful_metrics w <> JNull /\ last_metrics_time w = Some t /\
     cache_is_fresh env w
       = (Ret (clock env (steps w) - t <? metrics_cache_ttl w),
          tick (EvTime (clock env (steps w))) w)) \/
  ((last_successful_metrics w = JNull \/ last_metrics_time w = None) /\
   cache_is_fresh env w = (Ret false, w)).
Proof.
  destruct w as [cb mx dl sh dr lsm lmt ttl hf n tr].
  unfold cache_is_fresh. unfold_monad. cbn.
  destruct lsm; cbn; try (right; split; [left; reflexivity | reflexivity]);
    (destruct lmt as [t|]; cbn;
     [ left; exists t; repeat split; discriminate
     | right; split; [right; reflexivity | reflexivity] ]).
Qed.

(** What every call of [fetch_metrics] leaves behind. *)
Lemma fetch_metrics_post (env : Env) (w : World) :
  let r := fst (fetch_metrics env w) in
  let w' := snd (fetch_metrics env w) in
  (MAX_RETRY_ATTEMPTS w' = MAX_RETRY_ATTEMPTS w /\
   RETRY_DELAY w' = RETRY_DELAY w /\
   agent_draining w' = agent_draining w /\
   metrics_cache_ttl w' = metrics_cache_ttl w) /\
  (shutdown_event w = true -> shutdown_event w' = true) /\
  (cache_paired w -> cache_paired w') /\
  (exists a i : nat,
     attempts (trace w') = (attempts (trace w) + a)%nat /\
     invocations (trace w') = (invocations (trace w) + i)%nat /\
     (i <= a)%nat /\ (a <= Z.to_nat (max_attempts_of w))%nat /\
     (((exists v, r = Ret v) /\ failures "fetch" w' = 0) \/
      failures "fetch" w' = failures "fetch" w + Z.of_nat a)) /\
  (forall v, r = Ret v -> 0 < max_attempts_of w -> last_successful_metrics w' = v) /\
  (0 <= failures "fetch" w -> 0 <= failures "fetch" w').
Proof.
  cbv zeta. rewrite fetch_metrics_unfold.
  destruct (cache_is_fresh env w) as [rf w0] eqn:Hf.
  destruct (cache_is_fresh_effect _ _ _ _ Hf)
    as [(Cmx & Cdl & Csh & Cdr & Clsm & Clmt & Cttl & Chf) (Ccb & Cinv & Catt & Cw & Cst)].
  pose proof (failures_same _ _ "fetch" Chf) as Cfail.
  destruct rf as [[|]|e]; cbn [fst snd].
  - (* served from the cache *)
    unfold cache_paired. fields.
    split; [repeat split; assumption|].
    split; [congruence|]. split; [rewrite Clsm, Clmt; tauto|].
    split; [|split; [intros v [= <-] _; reflexivity | rewrite <- Cfail; unfold failures; fields; tauto]].
    exists 0%nat, 0%nat. norm_events. norm_inv.
    repeat split; try lia. right. unfold failures in *. fields. lia.
  - (* the retry loop *)
    pose proof (loop_post_holds env (max_attempts_of w) (retry_delay_of w)
                  (Z.to_nat (max_attempts_of w)) 0 w0 ltac:(f_equal; lia)) as Hpost.
    pose proof (loop_bound env (max_attempts_of w) (retry_delay_of w)
                  (Z.to_nat (max_attempts_of w)) 0 w0) as (_ & Hle & _).
    destruct (fetch_loop (Z.to_nat (max_attempts_of w)) 0 (max_attempts_of w)
                (retry_delay_of w) env w0) as [r w'].
    cbn [fst snd] in *.
    destruct Hpost as ((Imx & Idl & Idr & Ittl) & Ish & Ipair
                       & (a & i & Ia & Ii & Ile & Ifail) & Iret & Ipos).
    split; [repeat split; congruence|].
    split; [intros Htrue; apply Ish; congruence|].
    split; [intros Hp; apply Ipair; unfold cache_paired in *; rewrite Clsm, Clmt; exact Hp|].
    split; [|split; [intros v Hv Hpos; apply Iret; [exact Hv | lia]
                    | rewrite <- Cfail; exact Ipos]].
    exists a, i. rewrite Ia, Ii, Catt, Cinv. rewrite Cfail in Ifail.
    repeat split; try lia.
    destruct Ifail as [[Hv Hz] | Hs]; [left; split; [exact Hv | exact Hz] | right; exact Hs].
  - (* the cache test does not raise *)
    exfalso. destruct (cache_is_fresh_cases env w) as [(t & _ & _ & Heq) | (_ & Heq)];
      rewrite Heq in Hf; discriminate.
Qed.

Lemma metrics_world (fmt : json -> string) (env : Env) (w : World) :
  let w1 := snd (fetch_metrics env w) in
  let w' := snd (metrics fmt env w) in
  w' = w1 \/ exists e, w' = record (EvLog ERROR (MsgMetricsError e)) w1.
Proof.
  cbv zeta. rewrite metrics_run.
  destruct (fetch_metrics env w) as [[doc|e] w1]; cbn [snd].
  - destruct (convert_to_prometheus fmt doc) as [text|e];
      [destruct (has_surrogate text)|]; cbn [snd];
      [ right; exists UnicodeEncodeError; reflexivity
      | left; reflexivity
      | right; exists e; reflexivity ].
  - right. exists e. reflexivity.
Qed.

Lemma health_world (env : Env) (w : World) :
  let latch := shutdown_event w || signal env (steps w) in
  let w' := snd (health env w) in
  shutdown_event w' = latch /\
  last_successful_metrics w' = last_successful_metrics w /\
  last_metrics_time w' = last_metrics_time w /\
  failures "fetch" w' = failures "fetch" w.
Proof.
  cbv zeta. unfold health, failures. unfold_monad.
  destruct (shutdown_event w || signal env (steps w)); cbn; [tauto|].
  destruct (healthcheck_failures w !! "fetch") as [v|] eqn:Hv; cbn.
  - destruct (v >? 10); cbn; rewrite ?Hv; tauto.
  - rewrite lookup_insert_eq. tauto.
Qed.

(** X4.  Whenever [fetch_metrics] returns a document and its budget is
    positive, that document is the one the cache holds after the call: be it
    served fresh, just fetched, or served stale. *)
Theorem fetch_returns_cached_document (env : Env) (w w' : World) (v : json) :
  fetch_metrics env w = (Ret v, w') ->
  0 < max_attempts_of w ->
  last_successful_metrics w' = v.
Proof.
  intros Hrun Hpos.
  destruct (fetch_metrics_post env w) as (_ & _ & _ & _ & Hret & _).
  rewrite Hrun in Hret. cbn [fst snd] in Hret. apply Hret; [reflexivity | exact Hpos].
Qed.

(** A fresh module and an upstream that answers. *)
Lemma fetch_returns_cached_document_witness :
  last_successful_metrics (snd (fetch_metrics env_up init_world)) = doc_small.
Proof.
  apply (fetch_returns_cached_document env_up init_world
           (snd (fetch_metrics env_up init_world)) doc_small).
  - vm_compute. reflexivity.
  - vm_compute. reflexivity.
Defined.

(** X5.  The cache never holds a document without the time it was fetched:
    this holds when the module is imported and is kept by [fetch_metrics],
    by [/metrics] and by [/health]. *)
Theorem cache_pairing_kept (fmt : json -> string) (env : Env) (w : World) :
  cache_paired w ->
  cache_paired init_world /\
  cache_paired (snd (fetch_metrics env w)) /\
  cache_paired (snd (metrics fmt env w)) /\
  cache_paired (snd (health env w)).
Proof.
  intros Hp.
  destruct (fetch_metrics_post env w) as (_ & _ & Hpair & _). cbv zeta in Hpair.
  split; [intros H; exfalso; apply H; reflexivity|].
  split; [apply Hpair; exact Hp|]. split.
  - destruct (metrics_world fmt env w) as [-> | [e ->]]; [apply Hpair; exact Hp|].
    apply Hpair in Hp. exact Hp.
  - destruct (health_world env w) as (_ & Hl & Ht & _). cbv zeta in Hl, Ht.
    unfold cache_paired. rewrite Hl, Ht. exact Hp.
Qed.

(** The document cached at time 0 keeps its time stamp through a scrape. *)
Lemma cache_pairing_kept_witness :
  cache_paired world_cached /\
  cache_paired (snd (metrics fmt_none env_down world_cached)).
Proof.
  assert (Hp : cache_paired world_cached) by (intros _; discriminate).
  split; [exact Hp|].
  destruct (cache_pairing_kept fmt_none env_down world_cached Hp) as (_ & _ & Hm & _).
  exact Hm.
Defined.

(** X6.  The "fetch" counter after a call of [fetch_metrics] is 0 when an
    attempt of that call succeeded, and otherwise the counter before the call
    plus the number of attempts the call made; in particular a call that
    raises has counted each of its attempts once.  A counter that is not
    negative stays so. *)
Theorem failure_counter_tracks_attempts (env : Env) (w : World) :
  let r := fst (fetch_metrics env w) in
  let w' := snd (fetch_metrics env w) in
  exists a : nat,
    attempts (trace w') = (attempts (trace w) + a)%nat /\
    (failures "fetch" w' = 0 \/
     failures "fetch" w' = failures "fetch" w + Z.of_nat a) /\
    (forall e, r = Raise e ->
               failures "fetch" w' = failures "fetch" w + Z.of_nat a) /\
    (0 <= failures "fetch" w -> 0 <= failures "fetch" w').
Proof.
  cbv zeta.
  destruct (fetch_metrics_post env w)
    as (_ & _ & _ & (a & i & Ha & _ & _ & _ & Hfail) & _ & Hpos).
  cbv zeta in *. exists a. split; [exact Ha|]. split; [|split; [|exact Hpos]].
  - destruct Hfail as [[_ Hz] | Hs]; [left; exact Hz | right; exact Hs].
  - intros e He. destruct Hfail as [[[v Hv] _] | Hs]; [congruence | exact Hs].
Qed.

(** X7.  One call of [fetch_metrics] invokes the upstream at most once per
    attempt and makes at most as many attempts as its budget: 3 when
    draining, MAX_RETRY_ATTEMPTS otherwise. *)
Theorem upstream_invocations_bounded (env : Env) (w : World) :
  let w' := snd (fetch_metrics env w) in
  exists a i : nat,
    attempts (trace w') = (attempts (trace w) + a)%nat /\
    invocations (trace w') = (invocations (trace w) + i)%nat /\
    (i <= a)%nat /\
    (a <= Z.to_nat (if agent_draining w then 3 else MAX_RETRY_ATTEMPTS w))%nat.
Proof.
  cbv zeta.
  destruct (fetch_metrics_post env w)
    as (_ & _ & _ & (a & i & Ha & Hi & Hia & Hbudget & _) & _).
  cbv zeta in *. exists a, i. unfold max_attempts_of in Hbudget. tauto.
Qed.

(** X8.  The shutdown latch, once set, stays set through [fetch_metrics],
    [/metrics] and [/health]. *)
Theorem shutdown_latch_stays_set (fmt : json -> string) (env : Env) (w : World) :
  shutdown_event w = true ->
  shutdown_event (snd (fetch_metrics env w)) = true /\
  shutdown_event (snd (metrics fmt env w)) = true /\
  shutdown_event (snd (health env w)) = true.
Proof.
  intros Hset.
  destruct (fetch_metrics_post env w) as (_ & Hlatch & _). cbv zeta in Hlatch.
  split; [apply Hlatch; exact Hset|]. split.
  - destruct (metrics_world fmt env w) as [-> | [e ->]]; apply Hlatch; exact Hset.
  - destruct (health_world env w) as (Hl & _). cbv zeta in Hl.
    rewrite Hl, Hset. reflexivity.
Qed.

Lemma shutdown_latch_stays_set_witness :
  shutdown_event world_cached_shutdown = true /\
  shutdown_event (snd (health env_down world_cached_shutdown)) = true.
Proof.
  split; [reflexivity|].
  destruct (shutdown_latch_stays_set fmt_none env_down world_cached_shutdown eq_refl)
    as (_ & _ & Hh).
  exact Hh.
Defined.

(** ** Particular runs of [fetch_metrics] *)

Lemma health_answer (env : Env) (w : World) :
  fst (health env w)
  = Ret (if shutdown_event w || signal env (steps w)
         then mkResponse "Shutting down" 503 "text/plain"
         else if 10 <? failures "fetch" w
              then mkResponse "Too many fetch failures" 503 "text/plain"
              else mkResponse "OK" 200 "text/plain").
Proof.
  unfold health, failures. unfold_monad.
  destruct (shutdown_event w || signal env (steps w)); [reflexivity|]. cbn.
  destruct (healthcheck_failures w !! "fetch") as [v|]; cbn;
    rewrite ?Z.gtb_ltb; [destruct (10 <? v)|]; reflexivity.
Qed.

Lemma first_attempt_success (env : Env) (w w0 : World) (v : json) :
  cache_is_fresh env w = (Ret false, w0) ->
  shutdown_event w = false ->
  signal env (steps w0) = false ->
  state (circuit_breaker w) = CLOSED ->
  upstream env (S (steps w0)) = Ret v ->
  0 < max_attempts_of w ->
  fetch_metrics env w
    = (Ret v, stored v env (tick (EvRequest (Ret v)) (first_attempt_world w0))).
Proof.
  intros Hf Hsh Hsig Hst Hup Hpos.
  destruct (cache_is_fresh_effect _ _ _ _ Hf)
    as [(_ & _ & Csh & _) (Ccb & _)].
  rewrite fetch_metrics_unfold, Hf.
  destruct (Z.to_nat (max_attempts_of w)) as [|fuel] eqn:Hfuel; [lia|].
  rewrite fetch_loop_S. cbv zeta. rewrite Csh, Hsh, Hsig. cbn [orb].
  assert (Hcall : fetch_metrics_with_circuit_breaker env
                    (tick (EvIsSet false) (with_shutdown_event false w0))
                  = (Ret v, tick (EvRequest (Ret v)) (first_attempt_world w0))).
  { rewrite <- Ccb in Hst. unfold first_attempt_world.
    destruct w0 as [[thr rt cnt lft st] mx dl sh dr lsm lmt ttl hf n tr].
    cbn in Hst, Hup. subst st. unfold_monad. cbn. rewrite Hup. reflexivity. }
  rewrite Hcall. apply store_run.
Qed.

(** X9.  A call that finds no fresh cache entry, the latch unset and the
    breaker closed, and whose first request is answered with a document,
    returns that document, stores it with the time read after the request and
    sets the "fetch" counter to 0, having invoked the upstream once.  If the
    document is not [None], a call that follows within the time-to-live
    returns the same document without invoking the upstream. *)
Theorem fetched_document_served_from_cache (env : Env) (w w0 : World) (v : json) :
  cache_is_fresh env w = (Ret false, w0) ->
  shutdown_event w = false ->
  signal env (steps w0) = false ->
  state (circuit_breaker w) = CLOSED ->
  upstream env (S (steps w0)) = Ret v ->
  0 < max_attempts_of w ->
  let w1 := snd (fetch_metrics env w) in
  let stamp := clock env (S (S (steps w0))) in
  (fst (fetch_metrics env w) = Ret v /\
   last_successful_metrics w1 = v /\
   last_metrics_time w1 = Some stamp /\
   failures "fetch" w1 = 0 /\
   invocations (trace w1) = S (invocations (trace w))) /\
  (v <> JNull ->
   clock env (steps w1) - stamp < metrics_cache_ttl w ->
   fst (fetch_metrics env w1) = Ret v /\
   invocations (trace (snd (fetch_metrics env w1))) = invocations (trace w1)).
Proof.
  intros Hf Hsh Hsig Hst Hup Hpos.
  pose proof (first_attempt_success env w w0 v Hf Hsh Hsig Hst Hup Hpos) as Hrun.
  destruct (cache_is_fresh_effect _ _ _ _ Hf)
    as [(_ & _ & _ & _ & _ & _ & Cttl & _) (_ & Cinv & _)].
  cbv zeta. rewrite Hrun. cbn [fst snd].
  set (w1 := stored v env (tick (EvRequest (Ret v)) (first_attempt_world w0))).
  assert (Hlsm : last_successful_metrics w1 = v) by reflexivity.
  assert (Hlmt : last_metrics_time w1 = Some (clock env (S (S (steps w0)))))
    by reflexivity.
  assert (Httl : metrics_cache_ttl w1 = metrics_cache_ttl w) by (rewrite <- Cttl; reflexivity).
  split.
  - split; [reflexivity|]. split; [exact Hlsm|]. split; [exact Hlmt|]. split.
    + unfold failures, w1, stored. fields. rewrite lookup_insert_eq. reflexivity.
    + unfold w1, stored, first_attempt_world. fields. norm_inv. lia.
  - intros Hv Hlt.
    assert (Hfresh : fetch_metrics env w1
                     = (Ret (last_successful_metrics w1),
                        record (EvLog DEBUG MsgCached)
                          (tick (EvTime (clock env (steps w1))) w1))).
    { apply (fresh_cache_run env w1 (clock env (S (S (steps w0))))).
      - rewrite Hlsm. exact Hv.
      - exact Hlmt.
      - rewrite Httl. exact Hlt. }
    rewrite Hfresh. cbn [fst snd]. split; [rewrite Hlsm; reflexivity|].
    fields. norm_inv. lia.
Qed.

(** A fresh module fetches [doc_small] and serves it again ten seconds
    later. *)
Lemma fetched_document_served_from_cache_witness :
  fst (fetch_metrics env_up init_world) = Ret doc_small /\
  fst (fetch_metrics env_up (snd (fetch_metrics env_up init_world))) = Ret doc_small.
Proof.
  destruct (fetched_document_served_from_cache env_up init_world init_world doc_small)
    as ((Hfirst & _) & Hsecond); try reflexivity.
  split; [exact Hfirst|].
  destruct Hsecond as [Hagain _].
  - discriminate.
  - vm_compute. reflexivity.
  - exact Hagain.
Defined.

(** X10.  A JSON [null] answered by the upstream is returned as [None] and
    never served from the cache: whatever the time, the next call finds no
    fresh entry, and with the latch unset it makes an attempt. *)
Theorem null_document_is_not_cached (env : Env) (w w0 : World) :
  cache_is_fresh env w = (Ret false, w0) ->
  shutdown_event w = false ->
  signal env (steps w0) = false ->
  state (circuit_breaker w) = CLOSED ->
  upstream env (S (steps w0)) = Ret JNull ->
  0 < max_attempts_of w ->
  let w1 := snd (fetch_metrics env w) in
  fst (fetch_metrics env w) = Ret JNull /\
  (forall env', cache_is_fresh env' w1 = (Ret false, w1)) /\
  (forall env',
     signal env' (steps w1) = false ->
     (attempts (trace w1) < attempts (trace (snd (fetch_metrics env' w1))))%nat).
Proof.
  intros Hf Hsh Hsig Hst Hup Hpos.
  pose proof (first_attempt_success env w w0 JNull Hf Hsh Hsig Hst Hup Hpos) as Hrun.
  destruct (cache_is_fresh_effect _ _ _ _ Hf)
    as [(Cmx & _ & _ & Cdr & _) _].
  cbv zeta. rewrite Hrun. cbn [fst snd].
  set (w1 := stored JNull env (tick (EvRequest (Ret JNull)) (first_attempt_world w0))).
  assert (Hnf : forall env', cache_is_fresh env' w1 = (Ret false, w1)).
  { intros env'. reflexivity. }
  split; [reflexivity|]. split; [exact Hnf|].
  intros env' Hsig'. rewrite fetch_metrics_unfold, Hnf.
  assert (Hbudget : max_attempts_of w1 = max_attempts_of w).
  { unfold max_attempts_of. unfold w1, stored, first_attempt_world. fields.
    rewrite Cmx, Cdr. reflexivity. }
  rewrite Hbudget.
  destruct (Z.to_nat (max_attempts_of w)) as [|fuel] eqn:Hfuel; [lia|].
  apply loop_first_attempt. exact Hsig'.
Qed.

Lemma null_document_is_not_cached_witness :
  fst (fetch_metrics env_null init_world) = Ret JNull /\
  invocations (trace (snd (fetch_metrics env_null
                             (snd (fetch_metrics env_null init_world))))) = 2%nat.
Proof.
  destruct (null_document_is_not_cached env_null init_world init_world)
    as (Hfirst & _ & _); try reflexivity.
  split; [exact Hfirst | vm_compute; reflexivity].
Defined.

(** X11.  When the first attempt of a call fails, more attempts remain and
    the latch is found set during the wait, the call raises the shutdown
    error of the wait: one attempt has been made and counted, one wait of
    the retry delay has been started, and the latch is set afterwards. *)
Theorem latch_during_wait_aborts (env : Env) (w w0 w2 : World) (e : exn) :
  cache_is_fresh env w = (Ret false, w0) ->
  shutdown_event w = false ->
  signal env (steps w0) = false ->
  fetch_metrics_with_circuit_breaker env
    (tick (EvIsSet false) (with_shutdown_event false w0)) = (Raise e, w2) ->
  1 < max_attempts_of w ->
  signal env (steps w2) = true ->
  let w' := snd (fetch_metrics env w) in
  fst (fetch_metrics env w) = Raise ShutdownWaitError /\
  shutdown_event w' = true /\
  failures "fetch" w' = failures "fetch" w + 1 /\
  attempts (trace w') = S (attempts (trace w)) /\
  waits (trace w') = waits (trace w) ++ [retry_delay_of w].
Proof.
  intros Hf Hsh Hsig Hcall Hmore Hfire.
  destruct (cache_is_fresh_effect _ _ _ _ Hf)
    as [(_ & _ & Csh & _ & _ & _ & _ & Chf) (_ & _ & Catt & Cw & _)].
  destruct (attempt_effect _ _ _ _ Hcall)
    as [(_ & _ & _ & _ & _ & _ & _ & Hhf) [Hatt [Hw _]]].
  cbv zeta. rewrite fetch_metrics_unfold, Hf.
  destruct (Z.to_nat (max_attempts_of w)) as [|fuel] eqn:Hfuel; [lia|].
  rewrite fetch_loop_S. cbv zeta. rewrite Csh, Hsh, Hsig. cbn [orb]. rewrite Hcall.
  destruct (Z.ltb_spec 0 (max_attempts_of w - 1)); [|lia].
  destruct (retry_pause_any env (counted w2) 0 e (retry_delay_of w))
    as (w4 & Hpause & Psh & _ & _ & _ & _ & _ & _ & Phf & _ & Patt & _).
  pose proof (retry_pause_effect _ _ _ _ _ _ _ Hpause) as [_ Pw].
  pose proof (failures_same _ _ "fetch" Phf) as Pfail.
  rewrite failures_counted in Pfail.
  rewrite Hpause. fields. rewrite Hfire, orb_true_r in *. cbn [fst snd].
  split; [reflexivity|]. split; [exact Psh|]. split; [|split].
  - rewrite Pfail. unfold failures. rewrite Hhf, Chf. reflexivity.
  - rewrite Patt, Hatt. norm_events. lia.
  - rewrite Pw, Hw. norm_events. rewrite Cw. reflexivity.
Qed.

(** The upstream is down and the signal arrives during the first wait. *)
Lemma latch_during_wait_aborts_witness :
  fst (fetch_metrics env_down_then_signal init_world) = Raise ShutdownWaitError.
Proof.
  edestruct (latch_during_wait_aborts env_down_then_signal init_world) as (Hres & _).
  - compute_goal.
  - reflexivity.
  - reflexivity.
  - compute_goal.
  - compute_goal.
  - compute_goal.
  - exact Hres.
Defined.





(** X13.  With a budget of zero or less (MAX_RETRY_ATTEMPTS set to 0 or a
    negative number, and not draining) and no fresh cache entry,
    [fetch_metrics] makes no attempt and returns [None] whatever the cache
    holds; [/metrics] then answers the fallback document with status 200. *)
Theorem zero_budget_returns_none (fmt : json -> string) (env : Env) (w w0 : World) :
  cache_is_fresh env w = (Ret false, w0) ->
  max_attempts_of w <= 0 ->
  fetch_metrics env w = (Ret JNull, w0) /\
  attempts (trace w0) = attempts (trace w) /\
  invocations (trace w0) = invocations (trace w) /\
  fst (metrics fmt env w)
    = Ret (mkResponse (join nl minimal_metrics) 200 "text/plain").
Proof.
  intros Hf Hzero.
  destruct (cache_is_fresh_effect _ _ _ _ Hf) as [_ (_ & Cinv & Catt & _)].
  assert (Hrun : fetch_metrics env w = (Ret JNull, w0)).
  { rewrite fetch_metrics_unfold, Hf.
    replace (Z.to_nat (max_attempts_of w)) with 0%nat by lia. reflexivity. }
  repeat split; try assumption.
  rewrite metrics_run, Hrun. reflexivity.
Qed.

Lemma zero_budget_returns_none_witness :
  fetch_metrics env_up world_no_budget = (Ret JNull, world_no_budget).
Proof.
  destruct (zero_budget_returns_none fmt_none env_up world_no_budget world_no_budget)
    as (Hrun & _).
  - reflexivity.
  - unfold max_attempts_of. simpl. lia.
  - exact Hrun.
Defined.

(** X14.  A call of [fetch_metrics] that raises after enough attempts to
    bring the "fetch" counter above 10 makes [/health], asked next with the
    latch unset, answer 503 "Too many fetch failures". *)
Theorem failed_fetch_turns_health_red (env : Env) (w : World) (e : exn) :
  let w1 := snd (fetch_metrics env w) in
  let a := (attempts (trace w1) - attempts (trace w))%nat in
  fst (fetch_metrics env w) = Raise e ->
  10 < failures "fetch" w + Z.of_nat a ->
  shutdown_event w1 || signal env (steps w1) = false ->
  fst (health env w1) = Ret (mkResponse "Too many fetch failures" 503 "text/plain").
Proof.
  intros w1 a Hraise Hmany Hlatch.
  destruct (fetch_metrics_post env w)
    as (_ & _ & _ & (a' & i & Ha & _ & _ & _ & Hfail) & _).
  cbv zeta in Ha, Hfail. fold w1 in Ha, Hfail.
  assert (Hcount : failures "fetch" w1 = failures "fetch" w + Z.of_nat a).
  { destruct Hfail as [[[v Hv] _] | Hs]; [congruence|].
    rewrite Hs. unfold a. rewrite Ha. f_equal. lia. }
  rewrite health_answer, Hlatch, Hcount.
  destruct (Z.ltb_spec 10 (failures "fetch" w + Z.of_nat a)); [reflexivity | lia].
Qed.

(** A fresh module, not draining, against an upstream that is down: thirty
    attempts fail and [/health] turns red. *)
Lemma failed_fetch_turns_health_red_witness :
  fst (health env_down (snd (fetch_metrics env_down init_world)))
  = Ret (mkResponse "Too many fetch failures" 503 "text/plain").
Proof.
  apply (failed_fetch_turns_health_red env_down init_world CircuitOpenError).
  - vm_compute. reflexivity.
  - vm_compute. reflexivity.
  - vm_compute. reflexivity.
Defined.

(** ** The drain coordinator *)

Lemma polls_app (l1 l2 : list DrainEvent) : polls (l1 ++ l2) = (polls l1 + polls l2)%nat.
Proof. unfold polls. rewrite List.filter_app, length_app. reflexivity. Qed.

Lemma sleeps_app (l1 l2 : list DrainEvent) : sleeps (l1 ++ l2) = sleeps l1 ++ sleeps l2.
Proof. unfold sleeps. apply flat_map_app. Qed.

Ltac norm_drain :=
  cbn [drain_tick drain_record drain_steps drain_trace] in *;
  rewrite <- ?app_assoc, ?polls_app, ?sleeps_app in *;
  repeat match goal with
  | |- context [polls (?e :: ?l)] =>
      let v := eval cbv in (polls (e :: l)) in change (polls (e :: l)) with v
  | |- context [sleeps (?e :: ?l)] =>
      let v := eval cbv in (sleeps (e :: l)) in change (sleeps (e :: l)) with v
  | H : context [polls (?e :: ?l)] |- _ =>
      let v := eval cbv in (polls (e :: l)) in change (polls (e :: l)) with v in H
  | H : context [sleeps (?e :: ?l)] |- _ =>
      let v := eval cbv in (sleeps (e :: l)) in change (sleeps (e :: l)) with v in H
  end.

(** The loop from a world [d]: the first [k] polls are answered 200 within
    the grace period and the next one ends the drain. *)
Lemma drain_loop_agent_gone (denv : DrainEnv) (G start : Z) :
  forall (k fuel : nat) (d : Drain),
    (k < fuel)%nat ->
    (forall j, (j <= k)%nat ->
               drain_clock denv (drain_steps d + 2 * j) - start < G) ->
    (forall j, (j < k)%nat ->
               probe denv (drain_steps d + 2 * j + 1) = ProbeStatus 200) ->
    agent_gone (probe denv (drain_steps d + 2 * k + 1)) ->
    exists d',
      drain_loop fuel G start denv d = Some (Ret tt, d') /\
      polls (drain_trace d') = (polls (drain_trace d) + S k)%nat /\
      sleeps (drain_trace d') = sleeps (drain_trace d) ++ repeat 1 k /\
      drain_steps d' = (drain_steps d + 2 * S k)%nat.
Proof.
  induction k as [|k IH]; intros fuel d Hfuel Hin Hok Hgone;
    (destruct fuel as [|fuel]; [lia|]); cbn [drain_loop]; cbv zeta.
  - pose proof (Hin 0%nat ltac:(lia)) as H0.
    replace (drain_steps d + 2 * 0)%nat with (drain_steps d) in H0 by lia.
    destruct (Z.ltb_spec (drain_clock denv (drain_steps d) - start) G); [|lia].
    cbn [drain_tick drain_steps].
    replace (drain_steps d + 2 * 0 + 1)%nat with (S (drain_steps d)) in Hgone by lia.
    destruct (probe denv (S (drain_steps d))) as [code | e]; cbn in Hgone.
    + destruct (Z.eqb_spec code 200); [contradiction|].
      eexists. split; [reflexivity|]. norm_drain. repeat split; try lia.
    + destruct e; try contradiction.
      eexists. split; [reflexivity|]. norm_drain. repeat split; try lia.
  - pose proof (Hin 0%nat ltac:(lia)) as H0.
    replace (drain_steps d + 2 * 0)%nat with (drain_steps d) in H0 by lia.
    destruct (Z.ltb_spec (drain_clock denv (drain_steps d) - start) G); [|lia].
    cbn [drain_tick drain_steps].
    pose proof (Hok 0%nat ltac:(lia)) as Hp.
    replace (drain_steps d + 2 * 0 + 1)%nat with (S (drain_steps d)) in Hp by lia.
    rewrite Hp. cbn [Z.eqb Pos.eqb].
    set (d3 := drain_record (DrSleep 1) _).
    assert (Hs3 : drain_steps d3 = S (S (drain_steps d))) by reflexivity.
    destruct (IH fuel d3) as (d' & Hrun & Hp' & Hs' & Hst'); [lia | | | |].
    + intros j Hj. rewrite Hs3.
      replace (S (S (drain_steps d)) + 2 * j)%nat with (drain_steps d + 2 * S j)%nat by lia.
      apply Hin. lia.
    + intros j Hj. rewrite Hs3.
      replace (S (S (drain_steps d)) + 2 * j + 1)%nat
        with (drain_steps d + 2 * S j + 1)%nat by lia.
      apply Hok. lia.
    + rewrite Hs3.
      replace (S (S (drain_steps d)) + 2 * k + 1)%nat
        with (drain_steps d + 2 * S k + 1)%nat by lia.
      exact Hgone.
    + exists d'. split; [exact Hrun|]. rewrite Hp', Hs', Hst', Hs3.
      unfold d3. norm_drain. repeat split; try lia.
      rewrite <- app_assoc. reflexivity.
Qed.

(** X15.  The drain loop stops as soon as the agent goes away: when the
    first [k] polls are answered 200 within the grace period and the next
    poll gets another status or an exception of [requests], the loop ends
    normally after exactly [k + 1] polls, having slept one second after each
    of the [k] good ones. *)
Theorem drain_stops_when_agent_goes_away (denv : DrainEnv) (G : Z)
    (k fuel : nat) (d : Drain) :
  let s := drain_steps d in
  (k < fuel)%nat ->
  (forall j, (j <= k)%nat ->
             drain_clock denv (s + 1 + 2 * j) - drain_clock denv s < G) ->
  (forall j, (j < k)%nat -> probe denv (s + 2 + 2 * j) = ProbeStatus 200) ->
  agent_gone (probe denv (s + 2 + 2 * k)) ->
  exists d',
    wait_for_agent_drain fuel G denv d = Some (Ret tt, d') /\
    polls (drain_trace d') = (polls (drain_trace d) + S k)%nat /\
    sleeps (drain_trace d') = sleeps (drain_trace d) ++ repeat 1 k.
Proof.
  intros s Hfuel Hin Hok Hgone. unfold wait_for_agent_drain. cbv zeta. fold s.
  destruct (drain_loop_agent_gone denv G (drain_clock denv s) k fuel
              (drain_tick (DrTime (drain_clock denv s)) d) Hfuel)
    as (d' & Hrun & Hp & Hs & _).
  - intros j Hj. cbn [drain_tick drain_steps]. fold s.
    replace (S s + 2 * j)%nat with (s + 1 + 2 * j)%nat by lia. apply Hin. exact Hj.
  - intros j Hj. cbn [drain_tick drain_steps]. fold s.
    replace (S s + 2 * j + 1)%nat with (s + 2 + 2 * j)%nat by lia. apply Hok. exact Hj.
  - cbn [drain_tick drain_steps]. fold s.
    replace (S s + 2 * k + 1)%nat with (s + 2 + 2 * k)%nat by lia. exact Hgone.
  - rewrite Hrun. eexists. split; [reflexivity|].
    norm_drain. rewrite Hp, Hs. norm_drain. split; [lia|].
    rewrite !app_nil_r. reflexivity.
Qed.

(** The agent answers once and is gone at the second poll: two polls, one
    sleep, although the grace period is twelve hours. *)
Lemma drain_stops_when_agent_goes_away_witness :
  exists d',
    wait_for_agent_drain 10 43200 denv_agent_leaves drain_start = Some (Ret tt, d') /\
    polls (drain_trace d') = 2%nat /\
    sleeps (drain_trace d') = [1].
Proof.
  destruct (drain_stops_when_agent_goes_away denv_agent_leaves 43200 1 10 drain_start)
    as (d' & Hrun & Hp & Hs).
  - lia.
  - intros j Hj. simpl. lia.
  - intros j Hj. assert (j = 0%nat) as -> by lia. reflexivity.
  - simpl. exact I.
  - exists d'. split; [exact Hrun|]. split; [exact Hp | exact Hs].
Defined.

(** The loop, from a world in which the clock is at most [n] seconds short of
    the end of the grace period, ends within [n] polls. *)
Lemma drain_loop_ends (denv : DrainEnv) (G start : Z) :
  (forall i, drain_clock denv i + 1 <= drain_clock denv (S (S i))) ->
  forall (n fuel : nat) (d : Drain),
    (n < fuel)%nat ->
    G - (drain_clock denv (drain_steps d) - start) <= Z.of_nat n ->
    exists r d',
      drain_loop fuel G start denv d = Some (r, d') /\
      (polls (drain_trace d') <= polls (drain_trace d) + n)%nat.
Proof.
  intros Hadv. induction n as [|n IH]; intros fuel d Hfuel Hleft;
    (destruct fuel as [|fuel]; [lia|]); cbn [drain_loop]; cbv zeta.
  - destruct (Z.ltb_spec (drain_clock denv (drain_steps d) - start) G); [lia|].
    eexists. eexists. split; [reflexivity|]. norm_drain. lia.
  - destruct (Z.ltb_spec (drain_clock denv (drain_steps d) - start) G).
    + cbn [drain_tick drain_steps].
      destruct (probe denv (S (drain_steps d))) as [code | e].
      * destruct (code =? 200).
        -- set (d3 := drain_record (DrSleep 1) _).
           destruct (IH fuel d3) as (r & d' & Hrun & Hp); [lia | |].
           ++ change (drain_steps d3) with (S (S (drain_steps d))).
              pose proof (Hadv (drain_steps d)). lia.
           ++ exists r, d'. split; [exact Hrun|].
              unfold d3 in Hp. norm_drain. lia.
        -- eexists. eexists. split; [reflexivity|]. norm_drain. lia.
      * destruct e; eexists; eexists; (split; [reflexivity|]); norm_drain; lia.
    + eexists. eexists. split; [reflexivity|]. norm_drain. lia.
Qed.

Lemma drain_ends_with_grace_period_aux (denv : DrainEnv) (G : Z) (fuel : nat) (d : Drain) :
  (forall i, drain_clock denv i <= drain_clock denv (S i)) ->
  (forall i, drain_clock denv i + 1 <= drain_clock denv (S (S i))) ->
  (Z.to_nat G < fuel)%nat ->
  exists r d', wait_for_agent_drain fuel G denv d = Some (r, d').
Proof.
  intros Hmono Hadv Hfuel. unfold wait_for_agent_drain. cbv zeta.
  destruct (drain_loop_ends denv G (drain_clock denv (drain_steps d)) Hadv
              (Z.to_nat G) fuel (drain_tick (DrTime (drain_clock denv (drain_steps d))) d)
              Hfuel) as (r & d' & Hrun & _).
  - cbn [drain_tick drain_steps]. pose proof (Hmono (drain_steps d)). lia.
  - rewrite Hrun. destruct r as [[]|e]; eexists; eexists; reflexivity.
Qed.

(** X16.  The drain loop ends with the grace period.  When the clock does
    not run backwards and at least a second passes from one pass of the loop
    to the next (each pass that goes on sleeps one second), the loop ends,
    whatever the agent answers, after at most GRACE_PERIOD_SECONDS polls; with
    a grace period of zero or less it does not poll at all. *)
Theorem drain_ends_with_grace_period (denv : DrainEnv) (G : Z) (fuel : nat) (d : Drain) :
  (forall i, drain_clock denv i <= drain_clock denv (S i)) ->
  (forall i, drain_clock denv i + 1 <= drain_clock denv (S (S i))) ->
  (Z.to_nat G < fuel)%nat ->
  exists r d',
    wait_for_agent_drain fuel G denv d = Some (r, d') /\
    (polls (drain_trace d') <= polls (drain_trace d) + Z.to_nat G)%nat.
Proof.
  intros Hmono Hadv Hfuel. unfold wait_for_agent_drain. cbv zeta.
  destruct (drain_loop_ends denv G (drain_clock denv (drain_steps d)) Hadv
              (Z.to_nat G) fuel (drain_tick (DrTime (drain_clock denv (drain_steps d))) d)
              Hfuel) as (r & d' & Hrun & Hp).
  - cbn [drain_tick drain_steps]. pose proof (Hmono (drain_steps d)). lia.
  - rewrite Hrun. norm_drain.
    destruct r as [[]|e]; eexists; eexists; (split; [reflexivity|]); norm_drain; lia.
Qed.

(** The agent never goes away; with a grace period of five seconds the loop
    still ends, after at most five polls. *)
Lemma drain_ends_with_grace_period_witness :
  exists r d',
    wait_for_agent_drain 6 5 denv_agent_stays drain_start = Some (r, d') /\
    (polls (drain_trace d') <= 5)%nat.
Proof.
  destruct (drain_ends_with_grace_period denv_agent_stays 5 6 drain_start)
    as (r & d' & Hrun & Hp).
  - intros i. simpl. lia.
  - intros i. simpl. lia.
  - simpl. lia.
  - exists r, d'. split; [exact Hrun | exact Hp].
Defined.

Lemma wait_for_agent_drain_raises (fuel : nat) (G : Z) (denv : DrainEnv)
    (d d' : Drain) (e : exn) :
  wait_for_agent_drain fuel G denv d = Some (Raise e, d') ->
  forall msg, e <> RequestException msg.
Proof.
  unfold wait_for_agent_drain. cbv zeta.
  generalize (drain_tick (DrTime (drain_clock denv (drain_steps d))) d) as d0.
  generalize (drain_clock denv (drain_steps d)) as start.
  intros start d0 Hrun.
  assert (Hloop : drain_loop fuel G start denv d0 = Some (Raise e, d')).
  { destruct (drain_loop fuel G start denv d0) as [[[[]|e0] d1]|];
      try discriminate; exact Hrun. }
  clear Hrun. revert d0 Hloop.
  induction fuel as [|fuel IH]; intros d0; cbn [drain_loop]; cbv zeta; [discriminate|].
  destruct (_ <? G); [|discriminate].
  destruct (probe denv _) as [code | e0].
  - destruct (code =? 200); [apply IH | discriminate].
  - destruct e0 as [m0|m0| | |]; try discriminate; intros [= <- _] m1; discriminate.
Qed.

(** X17.  The signal handler, when its drain loop ends (with enough fuel it
    does, under the conditions on the clock above): it has set
    [agent_draining] and touched no other global but the latch.  Either the
    loop ended normally: the handler then sets the latch and exits with
    status 0, and afterwards [/health] answers 503 "Shutting down" and a
    [fetch_metrics] that finds no fresh cache entry raises the shutdown error
    without an attempt.  Or a poll raised something that is not an exception
    of [requests]: it is not caught, and the latch is left as it was. *)
Theorem signal_handler_latches_after_drain (denv : DrainEnv) (env : Env)
    (signum G : Z) (fuel : nat) (w : World) (d : Drain) :
  (forall i, drain_clock denv i <= drain_clock denv (S i)) ->
  (forall i, drain_clock denv i + 1 <= drain_clock denv (S (S i))) ->
  (Z.to_nat G < fuel)%nat ->
  exists out w' d',
    signal_handler fuel signum G denv w d = Some (out, w', d') /\
    agent_draining w' = true /\
    (circuit_breaker w' = circuit_breaker w /\
     last_successful_metrics w' = last_successful_metrics w /\
     last_metrics_time w' = last_metrics_time w /\
     healthcheck_failures w' = healthcheck_failures w /\
     trace w' = trace w) /\
    ((out = SystemExit 0 /\
      shutdown_event w' = true /\
      fst (health env w') = Ret (mkResponse "Shutting down" 503 "text/plain") /\
      (fst (cache_is_fresh env w') = Ret false ->
       fst (fetch_metrics env w') = Raise ShutdownFetchError /\
       attempts (trace (snd (fetch_metrics env w'))) = attempts (trace w')))
     \/
     (exists e, out = Uncaught e /\
                (forall msg, e <> RequestException msg) /\
                shutdown_event w' = shutdown_event w)).
Proof.
  intros Hmono Hadv Hfuel. unfold signal_handler. cbv zeta.
  destruct (drain_ends_with_grace_period_aux denv G fuel
              (drain_record (DrLog INFO (MsgSignal signum)) d) Hmono Hadv Hfuel)
    as (r & d' & Hrun).
  rewrite Hrun. destruct r as [[]|e].
  - eexists. eexists. eexists. split; [reflexivity|].
    split; [reflexivity|]. split; [repeat split|]. left.
    set (w' := with_shutdown_event true (with_agent_draining true w)).
    split; [reflexivity|]. split; [reflexivity|]. split.
    + rewrite health_answer. reflexivity.
    + intros Hnf. rewrite fetch_metrics_unfold.
      destruct (cache_is_fresh env w') as [rf w0] eqn:Hf. cbn [fst] in Hnf. subst rf.
      destruct (cache_is_fresh_effect _ _ _ _ Hf)
        as [(_ & _ & Csh & _) (_ & _ & Catt & _)].
      change (max_attempts_of w') with 3. change (Z.to_nat 3) with 3%nat.
      rewrite fetch_loop_S. cbv zeta. rewrite Csh. cbn [fst snd orb shutdown_event w' with_shutdown_event].
      fields. norm_events. split; [reflexivity | lia].
  - eexists. eexists. eexists. split; [reflexivity|].
    split; [reflexivity|]. split; [repeat split|]. right.
    exists e. split; [reflexivity|]. split; [|reflexivity].
    apply (wait_for_agent_drain_raises _ _ _ _ _ _ Hrun).
Qed.

(** ** The translator: where it fails and what it reads *)

Lemma dict_get_obj (m : gmap string json) (key : string) (dflt : json) :
  dict_get (JObj m) key dflt = Ret (default dflt (m !! key)).
Proof. reflexivity. Qed.

(** X18.  The translator raises nothing but [AttributeError], and it raises
    exactly on the documents that are not a JSON object or whose [buildInfo]
    is present without being a JSON object; on every other document it
    returns a text. *)
Theorem translator_fails_only_on_malformed (fmt : json -> string) (doc : json) :
  ((exists text, convert_to_prometheus fmt doc = Ret text) <-> translatable doc) /\
  (convert_to_prometheus fmt doc = Raise AttributeError <-> ~ translatable doc) /\
  (forall e, convert_to_prometheus fmt doc = Raise e -> e = AttributeError).
Proof.
  assert (Hcases : (translatable doc /\ exists text, convert_to_prometheus fmt doc = Ret text)
                   \/ (~ translatable doc /\ convert_to_prometheus fmt doc = Raise AttributeError)).
  { destruct doc as [| b | z | bits | s | l | m];
      try (right; split; [intros (m0 & Hm & _); discriminate | reflexivity]).
    destruct (m !! "buildInfo") as [bi|] eqn:Hbi.
    - destruct bi as [| b | z | bits | s | l | bim];
        try (right; split;
             [ intros (m0 & [= <-] & [Hn | (bi0 & Hs)]); congruence
             | unfold convert_to_prometheus; rewrite !dict_get_obj, Hbi; reflexivity ]).
      left. split.
      + exists m. split; [reflexivity|]. right. exists bim. exact Hbi.
      + unfold convert_to_prometheus. rewrite !dict_get_obj, Hbi. cbn [default from_option id rbind].
        rewrite !dict_get_obj. cbn [rbind]. eexists. reflexivity.
    - left. split.
      + exists m. split; [reflexivity|]. left. exact Hbi.
      + unfold convert_to_prometheus. rewrite !dict_get_obj, Hbi. cbn [default from_option id rbind].
        rewrite !dict_get_obj. cbn [rbind]. eexists. reflexivity. }
  destruct Hcases as [[Ht [text Htext]] | [Hnt Hraise]].
  - split; [split; [intros _; exact Ht | intros _; exists text; exact Htext]|].
    split; [split; [rewrite Htext; discriminate | intros Hn; contradiction]|].
    intros e He. rewrite Htext in He. discriminate.
  - split; [split; [intros [text Htext]; rewrite Hraise in Htext; discriminate
                   | intros Ht; contradiction]|].
    split; [split; [intros _; exact Hnt | intros _; exact Hraise]|].
    intros e He. rewrite Hraise in He. injection He as <-. reflexivity.
Qed.

(** X19.  The translation depends on five keys of the document and on three
    keys of its [buildInfo] only: setting any other key, to any value, in
    the document or in its [buildInfo] leaves the result as it is. *)
Theorem translator_ignores_other_keys (fmt : json -> string)
    (m bi : gmap string json) (k : string) (v : json) :
  (k ∉ document_keys ->
   convert_to_prometheus fmt (JObj (<[k := v]> m)) = convert_to_prometheus fmt (JObj m)) /\
  (k ∉ build_info_keys ->
   m !! "buildInfo" = Some (JObj bi) ->
   convert_to_prometheus fmt (JObj (<["buildInfo" := JObj (<[k := v]> bi)]> m))
     = convert_to_prometheus fmt (JObj m)).
Proof.
  split.
  - intros Hk. unfold document_keys in Hk.
    unfold convert_to_prometheus. rewrite !dict_get_obj.
    rewrite !lookup_insert_ne by (intros ->; apply Hk; set_solver).
    reflexivity.
  - intros Hk Hbi. unfold build_info_keys in Hk.
    unfold convert_to_prometheus. rewrite !dict_get_obj.
    rewrite lookup_insert_eq, Hbi. cbn [default from_option id rbind]. rewrite !dict_get_obj.
    rewrite !(lookup_insert_ne m) by discriminate.
    rewrite !(lookup_insert_ne bi) by (intros ->; apply Hk; set_solver).
    reflexivity.
Qed.

(** An unknown key beside the known ones changes nothing. *)
Lemma translator_ignores_other_keys_witness :
  convert_to_prometheus fmt_none
    (match doc_running with
     | JObj m => JObj (<["hostname" := JStr "agent-1"]> m)
     | other => other
     end)
  = convert_to_prometheus fmt_none doc_running.
Proof.
  unfold doc_running.
  destruct (translator_ignores_other_keys fmt_none
              (<["buildInfo" := JObj (<["version" := JStr "1.2.3"]> ∅)]>
                 (<["agentStatus" := JStr "RUNNING"]> ∅))
              ∅ "hostname" (JStr "agent-1")) as [Hdoc _].
  apply Hdoc. unfold document_keys. intros Hin.
  repeat (apply elem_of_cons in Hin as [Heq | Hin]; [discriminate Heq|]).
  apply elem_of_nil in Hin. exact Hin.
Defined.

(** ** Two scrapes in a row *)

(** X20.  Two requests to [/metrics], the first of which fetches a
    document the translator accepts (no fresh cache entry, latch unset,
    breaker closed, first request answered) and the second of which comes
    within the time-to-live: both answer with status 200 and the same body,
    which is the translated text, or the fallback document when that text
    cannot be encoded; the second does not invoke the upstream. *)
Theorem second_scrape_served_from_cache (fmt : json -> string) (env : Env)
    (w w0 : World) (v : json) :
  cache_is_fresh env w = (Ret false, w0) ->
  shutdown_event w = false ->
  signal env (steps w0) = false ->
  state (circuit_breaker w) = CLOSED ->
  upstream env (S (steps w0)) = Ret v ->
  0 < max_attempts_of w ->
  translatable v ->
  let w1 := snd (metrics fmt env w) in
  clock env (steps w1) - clock env (S (S (steps w0))) < metrics_cache_ttl w ->
  fst (metrics fmt env w1) = fst (metrics fmt env w) /\
  (exists text,
     convert_to_prometheus fmt v = Ret text /\
     fst (metrics fmt env w)
       = Ret (mkResponse (if has_surrogate text then join nl minimal_metrics else text)
                         200 "text/plain")) /\
  invocations (trace (snd (metrics fmt env w1))) = invocations (trace w1).
Proof.
  intros Hf Hsh Hsig Hst Hup Hpos Hv.
  pose proof (first_attempt_success env w w0 v Hf Hsh Hsig Hst Hup Hpos) as Hrun.
  destruct (cache_is_fresh_effect _ _ _ _ Hf)
    as [(_ & _ & _ & _ & _ & _ & Cttl & _) _].
  assert (Htext : exists text, convert_to_prometheus fmt v = Ret text).
  { destruct Hv as (m & -> & Hbi).
    unfold convert_to_prometheus. rewrite !dict_get_obj.
    destruct Hbi as [-> | [bi ->]]; cbn [default from_option id rbind]; rewrite !dict_get_obj;
      cbn [rbind]; eexists; reflexivity. }
  destruct Htext as [text Htext].
  assert (Hnn : v <> JNull) by (destruct Hv as (m & -> & _); discriminate).
  set (wa := stored v env (tick (EvRequest (Ret v)) (first_attempt_world w0))) in *.
  cbv zeta. rewrite (metrics_run fmt env w), Hrun, Htext.
  destruct (has_surrogate text) eqn:Hs; cbn [fst snd]; intros Hlt;
    match goal with
    | |- context [metrics fmt env ?wb] =>
        assert (Hfresh : fetch_metrics env wb
                         = (Ret v, record (EvLog DEBUG MsgCached)
                                     (tick (EvTime (clock env (steps wb))) wb)))
          by (apply (fresh_cache_run env wb (clock env (S (S (steps w0)))));
              [ exact Hnn
              | reflexivity
              | change (metrics_cache_ttl wb) with (metrics_cache_ttl w0);
                rewrite Cttl; exact Hlt ]);
        rewrite (metrics_run fmt env wb), Hfresh, Htext, Hs
    end;
    cbn [fst snd]; (split; [reflexivity|]); (split; [exists text; split; [reflexivity | rewrite Hs; reflexivity]|]);
    fields; norm_inv; lia.
Qed.

Lemma second_scrape_served_from_cache_witness :
  fst (metrics fmt_none env_up (snd (metrics fmt_none env_up init_world)))
  = fst (metrics fmt_none env_up init_world).
Proof.
  assert (Ht : translatable doc_small).
  { exists (<["activeTaskCount" := JInt 5]> ∅). split; [reflexivity|]. left. reflexivity. }
  exact (proj1 (second_scrape_served_from_cache fmt_none env_up init_world init_world
                  doc_small eq_refl eq_refl eq_refl eq_refl eq_refl eq_refl Ht eq_refl)).
Defined.

(** The signal arrives while the agent answers once and then goes away. *)
Lemma signal_handler_latches_after_drain_witness :
  exists w' d',
    signal_handler 6 15 5 denv_agent_leaves init_world drain_start
      = Some (SystemExit 0, w', d') /\
    agent_draining w' = true /\ shutdown_event w' = true.
Proof.
  destruct (signal_handler_latches_after_drain denv_agent_leaves env_down 15 5 6
              init_world drain_start)
    as (out & w' & d' & Hrun & Hdr & _ & Hout).
  - intros i. simpl. lia.
  - intros i. simpl. lia.
  - simpl. lia.
  - destruct Hout as [(-> & Hlatch & _) | (e & -> & _)].
    + exists w', d'. split; [exact Hrun|]. split; [exact Hdr | exact Hlatch].
    + vm_compute in Hrun. discriminate.
Defined.
